(** * go-supervisor: the restart loop of [supervisor.Start]

    A shallow embedding of [supervisor/supervisor.go]: the configuration
    defaults applied by [Start], the backoff update
    [time.Duration(math.Min(float64(backoff*2), float64(cfg.MaxBackoff)))],
    the deferred [recover()] around the worker call and the [for] loop of the
    supervising goroutine, run against a logical clock. *)

From Stdlib Require Import ZArith Lia Bool List String.
Import ListNotations.

Local Open Scope Z_scope.

(** ** [time.Duration]: a signed 64-bit count of nanoseconds *)

Definition Duration := Z.

Definition min_int64 : Z := - 2 ^ 63.
Definition max_int64 : Z := 2 ^ 63 - 1.

Definition is_int64 (z : Z) : Prop := min_int64 <= z <= max_int64.

(** Two's-complement wrap-around of an [int64] result. *)
Definition wrap64 (z : Z) : Z := (z + 2 ^ 63) mod 2 ^ 64 - 2 ^ 63.

(** [d * 2] on a [time.Duration]. *)
Definition double (d : Duration) : Duration := wrap64 (d * 2).

Definition Nanosecond : Duration := 1.
Definition Millisecond : Duration := 1000000 * Nanosecond.
Definition Second : Duration := 1000 * Millisecond.

(** ** [float64]

    Every [float64] that the backoff update handles is the conversion of an
    [int64]: it is finite, never a negative zero, and integral, so it is
    represented by its exact value. *)

Definition float64 := Z.

(** The multiple of [2 ^ e] nearest to [m], ties going to the even
    multiple (IEEE 754 round-to-nearest-even). *)
Definition round_to_even (m e : Z) : Z :=
  let q := m / 2 ^ e in
  let r := m mod 2 ^ e in
  let h := 2 ^ (e - 1) in
  let q' := if r <? h then q
            else if h <? r then q + 1
            else if Z.even q then q else q + 1 in
  q' * 2 ^ e.

(** [float64(x)] for an [int64] [x]: exact below [2 ^ 53], otherwise rounded
    to the 53 significant bits of the format. *)
Definition float64_of_int64 (x : Z) : float64 :=
  let m := Z.abs x in
  if m <? 2 ^ 53 then x
  else Z.sgn x * round_to_even m (Z.log2 m - 52).

(** [math.Min] on finite floats without negative zero. *)
Definition math_Min (x y : float64) : float64 := Z.min x y.

(** ** Configuration *)

(** [*log.Logger]: the process-wide [log.Default()], a logger the caller
    built on a writer that accepts every write, or [log.New(nil, ...)], a
    logger on the [nil] writer; the [nil] pointer is [None] in [Config]. *)
Inductive log_Logger : Type :=
| log_Default
| user_logger (id : nat)
| nil_writer_logger.

(** [var discardLogger = log.New(nil, "", 0)] of the tests. *)
Definition discardLogger : log_Logger := nil_writer_logger.

Record Config : Type := mkConfig {
  MinBackoff : Duration;
  MaxBackoff : Duration;
  Logger : option log_Logger
}.

Definition DefaultConfig : Config :=
  {| MinBackoff := 1 * Second;
     MaxBackoff := 30 * Second;
     Logger := Some log_Default |}.

(** The three [if] statements at the head of [Start]. *)
Definition resolve (cfg : Config) : Config :=
  let cfg := if MinBackoff cfg =? 0
             then mkConfig (1 * Second) (MaxBackoff cfg) (Logger cfg)
             else cfg in
  let cfg := if MaxBackoff cfg =? 0
             then mkConfig (MinBackoff cfg) (30 * Second) (Logger cfg)
             else cfg in
  let cfg := match Logger cfg with
             | None => mkConfig (MinBackoff cfg) (MaxBackoff cfg) (Some log_Default)
             | Some _ => cfg
             end in
  cfg.

(** The logger the goroutine writes to once [Start] has resolved [cfg]. *)
Definition logger_of (cfg : Config) : log_Logger :=
  match Logger cfg with
  | Some l => l
  | None => log_Default
  end.

(** ** Panics, [defer] and [recover] *)

(** Interface values ([any]): [nil], a value identified by its [%v]
    rendering, or the [*runtime.PanicNilError] of the runtime. *)
Inductive any : Type :=
| nil_any
| value (rendering : string)
| PanicNilError.

Definition is_nil (v : any) : bool :=
  match v with
  | nil_any => true
  | _ => false
  end.

(** The run-time error of a method call on a [nil] interface value. *)
Definition nil_dereference : any :=
  value "runtime error: invalid memory address or nil pointer dereference".

(** What an output call on a logger panics with, if it does: [Printf] and
    [Println] end in [l.out.Write], a method call on the writer, which on
    the [nil] writer is a run-time panic. *)
Definition output_panics (l : log_Logger) : option any :=
  match l with
  | nil_writer_logger => Some nil_dereference
  | log_Default | user_logger _ => None
  end.

(** How a call ends: it returns, it unwinds with a panic value, or it
    unwinds because the goroutine called [runtime.Goexit]. *)
Inductive Completion : Type :=
| Normal
| Panicking (v : any)
| Exiting.

(** [panic(v)]: the runtime replaces a [nil] argument by a
    [*runtime.PanicNilError] (Go 1.21 and later). *)
Definition gopanic (v : any) : Completion :=
  if is_nil v then Panicking PanicNilError else Panicking v.

(** [recover()] called directly by a deferred function: yields the value of
    the panic in flight and stops the unwinding, or yields [nil]; it does
    not stop a [runtime.Goexit]. *)
Definition recover (c : Completion) : any * Completion :=
  match c with
  | Normal => (nil_any, Normal)
  | Panicking v => (v, Normal)
  | Exiting => (nil_any, Exiting)
  end.

(** ** The worker and the cancellation signal *)

(** One invocation of the worker: it returns after [elapsed] nanoseconds,
    calls [panic(v)] or [runtime.Goexit()] after [elapsed] nanoseconds, or
    never returns. *)
Inductive Behaviour : Type :=
| Return (elapsed : N)
| Panic (elapsed : N) (v : any)
| Goexit (elapsed : N)
| Block.

(** The time an invocation takes. *)
Definition elapsed_of (b : Behaviour) : Z :=
  match b with
  | Return d | Panic d _ | Goexit d => Z.of_N d
  | Block => 0
  end.

(** The invocation comes back to the wrapper's caller-to-be: it returns or
    it panics. *)
Definition comes_back (b : Behaviour) : bool :=
  match b with
  | Return _ | Panic _ _ => true
  | Goexit _ | Block => false
  end.

(** The surroundings of one supervising goroutine: the instant at which
    [ctx.Done()] is closed, if ever, and what the [k]-th invocation of the
    worker does when it is started at time [t]. *)
Record Env : Type := mkEnv {
  cancel_at : option Z;
  worker : nat -> Z -> Behaviour
}.

(** [<-ctx.Done()] is ready at time [t]. *)
Definition ctx_done (env : Env) (t : Z) : bool :=
  match cancel_at env with
  | Some c => c <=? t
  | None => false
  end.

(** ** What the goroutine does, as a trace *)

Inductive Msg : Type :=
| MsgStopped                       (* "[supervisor] stopped" *)
| MsgCrashed (r : any)             (* "[supervisor] worker crashed: %v" *)
| MsgRestarting (d : Duration).    (* "[supervisor] restarting worker in %v" *)

Inductive Event : Type :=
| EvInvoke (t : Z) (k : nat)             (* worker(ctx) entered *)
| EvLog (t : Z) (l : log_Logger) (m : Msg)   (* cfg.Logger.Print... *)
| EvSleep (t : Z) (d : Duration).        (* time.Sleep(d) entered *)

Record Loop : Type := mkLoop {
  backoff : Duration;
  clock : Z;
  runs : nat;
  trace : list Event
}.

Definition emit (e : Event) (s : Loop) : Loop :=
  mkLoop (backoff s) (clock s) (runs s) (trace s ++ [e]).

Definition tick (d : Z) (s : Loop) : Loop :=
  mkLoop (backoff s) (clock s + d) (runs s) (trace s).

(** The goroutine once it has issued [cfg.Logger.Print...] with [m]. *)
Definition logf (cfg : Config) (m : Msg) (s : Loop) : Loop :=
  emit (EvLog (clock s) (logger_of cfg) m) s.

(** [cfg.Logger.Printf] and [cfg.Logger.Println]: the call is issued, and
    it returns or it panics with the value given. *)
Definition Printf (cfg : Config) (m : Msg) (s : Loop) : option any * Loop :=
  (output_panics (logger_of cfg), logf cfg m s).

(** The output calls of the logger of [cfg] return. *)
Definition log_returns (cfg : Config) : bool :=
  match output_panics (logger_of cfg) with
  | None => true
  | Some _ => false
  end.

(** [time.Sleep(d)]: returns at once when [d <= 0], otherwise after [d];
    it takes no cancellation signal. *)
Definition time_Sleep (d : Duration) (s : Loop) : Loop :=
  tick (Z.max 0 d) (emit (EvSleep (clock s) d) s).

Inductive Call : Type :=
| Finished (c : Completion) (s : Loop)
| Hangs (s : Loop).

(** Entering [worker(ctx)] for the next time. *)
Definition enter (s : Loop) : Loop :=
  mkLoop (backoff s) (clock s) (S (runs s))
         (trace s ++ [EvInvoke (clock s) (runs s)]).

(** [worker(ctx)]. *)
Definition call_worker (env : Env) (s : Loop) : Call :=
  match worker env (runs s) (clock s) with
  | Return d => Finished Normal (tick (Z.of_N d) (enter s))
  | Panic d v => Finished (gopanic v) (tick (Z.of_N d) (enter s))
  | Goexit d => Finished Exiting (tick (Z.of_N d) (enter s))
  | Block => Hangs (enter s)
  end.

(** The deferred closure:
    [if r := recover(); r != nil { cfg.Logger.Printf(crashed, r) }].
    A panic of [Printf] is a new panic, raised after [recover()]. *)
Definition deferred (cfg : Config) (c : Completion) (s : Loop)
  : Completion * Loop :=
  let (r, c') := recover c in
  if negb (is_nil r) then
    match Printf cfg (MsgCrashed r) s with
    | (Some e, s') => (Panicking e, s')
    | (None, s') => (c', s')
    end
  else (c', s).

(** The function literal [func() { defer ...; worker(ctx) }()]: the deferred
    closure runs when the worker call ends, however it ends. *)
Definition invoke (cfg : Config) (env : Env) (s : Loop) : Call :=
  match call_worker env s with
  | Finished c s1 => let (c', s2) := deferred cfg c s1 in Finished c' s2
  | Hangs s1 => Hangs s1
  end.

(** The messages written to the log, and the crash notices among them. *)
Definition messages (s : Loop) : list Msg :=
  flat_map (fun e => match e with EvLog _ _ m => [m] | _ => [] end) (trace s).

Definition crash_notices (s : Loop) : list any :=
  flat_map (fun m => match m with MsgCrashed r => [r] | _ => [] end)
           (messages s).

Definition sleeps (s : Loop) : list Duration :=
  flat_map (fun e => match e with EvSleep _ d => [d] | _ => [] end) (trace s).

(** The delays announced by the restart notices, the instants at which the
    worker was entered, and the number of stop notices. *)
Definition restart_notices (s : Loop) : list Duration :=
  flat_map (fun m => match m with MsgRestarting d => [d] | _ => [] end)
           (messages s).

Definition invoke_times (s : Loop) : list Z :=
  flat_map (fun e => match e with EvInvoke t _ => [t] | _ => [] end) (trace s).

Definition stop_notices (s : Loop) : nat :=
  List.length (flat_map (fun m => match m with MsgStopped => [tt] | _ => [] end)
                   (messages s)).

(** The value [CVTTSD2SQ] gives on amd64 for a float outside the range. *)
Definition cvt_amd64 (f : float64) : Z := min_int64.

(** The state a worker call ended or hung in. *)
Definition call_state (c : Call) : Loop :=
  match c with
  | Finished _ s | Hangs s => s
  end.

(** The bounds of [TestSupervisorBackoffIncreases], 20ms and 200ms, with a
    logger on a writer that accepts every write, and the test's worker,
    which panics with ["boom"] on every invocation, here a microsecond after
    it is entered. *)
Definition test_config : Config :=
  mkConfig (20 * Millisecond) (200 * Millisecond) (Some (user_logger 0)).

(** The configuration of [TestSupervisorBackoffIncreases] as the test
    builds it, on [discardLogger]. *)
Definition discard_config : Config :=
  mkConfig (20 * Millisecond) (200 * Millisecond) (Some discardLogger).

Definition always_panics (k : nat) (t : Z) : Behaviour :=
  Panic 1000 (value "boom").

(** A worker that calls [runtime.Goexit()] as soon as it is entered. *)
Definition always_goexits (k : nat) (t : Z) : Behaviour :=
  Goexit 0.

(** ** The backoff update and the loop *)

Section Supervisor.

(** Converting a [float64] outside the [int64] range to an integer type
    succeeds with an implementation-dependent value: [cvt_overflow] is the
    choice of the target ([wrap64] keeps it an [int64] whatever it is). *)
Variable cvt_overflow : float64 -> Z.

(** [time.Duration(f)] for an integral [float64]. *)
Definition Duration_of_float64 (f : float64) : Duration :=
  if (min_int64 <=? f) && (f <=? max_int64) then f
  else wrap64 (cvt_overflow f).

(** [time.Duration(math.Min(float64(backoff*2), float64(cfg.MaxBackoff)))]. *)
Definition next (current max : Duration) : Duration :=
  Duration_of_float64
    (math_Min (float64_of_int64 (double current)) (float64_of_int64 max)).

(** Where one pass through the body of the [for] leaves the goroutine. *)
Inductive Cycle : Type :=
| Stopped (s : Loop)            (* [return] after the stop notice *)
| Next (s : Loop)               (* back at the head of the [for] *)
| Stuck (s : Loop)              (* inside a worker that never returns *)
| Died (v : any) (s : Loop)     (* a panic unwound the goroutine *)
| Exited (s : Loop).            (* [runtime.Goexit] ended the goroutine *)

Definition state_of (c : Cycle) : Loop :=
  match c with
  | Stopped s | Next s | Stuck s | Died _ s | Exited s => s
  end.

(** One pass through the body of the [for]. *)
Definition cycle (cfg : Config) (env : Env) (s : Loop) : Cycle :=
  if ctx_done env (clock s) then
    match Printf cfg MsgStopped s with
    | (Some e, s') => Died e s'
    | (None, s') => Stopped s'
    end
  else
    match invoke cfg env s with
    | Hangs s1 => Stuck s1
    | Finished (Panicking v) s1 => Died v s1
    | Finished Exiting s1 => Exited s1
    | Finished Normal s1 =>
        match Printf cfg (MsgRestarting (backoff s1)) s1 with
        | (Some e, s2) => Died e s2
        | (None, s2) =>
            let s3 := time_Sleep (backoff s2) s2 in
            Next (mkLoop (next (backoff s3) (MaxBackoff cfg))
                         (clock s3) (runs s3) (trace s3))
        end
    end.

(** At most [fuel] passes. *)
Fixpoint loop (fuel : nat) (cfg : Config) (env : Env) (s : Loop) : Cycle :=
  match fuel with
  | O => Next s
  | S fuel' =>
      match cycle cfg env s with
      | Next s' => loop fuel' cfg env s'
      | c => c
      end
  end.

(** The goroutine as [Start] launches it at time [t0]:
    [backoff := cfg.MinBackoff] on the resolved configuration. *)
Definition spawn (cfg : Config) (t0 : Z) : Loop :=
  mkLoop (MinBackoff cfg) t0 O [].

(** [Start(ctx, cfg, worker)], observed for at most [fuel] passes. *)
Definition Start (fuel : nat) (env : Env) (t0 : Z) (cfg : Config) : Cycle :=
  let cfg := resolve cfg in
  loop fuel cfg env (spawn cfg t0).

(** The backoff after [i] updates of [b] under the ceiling [max]. *)
Fixpoint backoff_after (max b : Duration) (i : nat) : Duration :=
  match i with
  | O => b
  | S j => next (backoff_after max b j) max
  end.

(** The wait of the [i]-th pass of a goroutine started on [cfg]. *)
Definition wait (cfg : Config) (i : nat) : Duration :=
  backoff_after (MaxBackoff cfg) (MinBackoff cfg) i.

(** The backoff lies between the bounds of [cfg]. *)
Definition in_bounds (cfg : Config) (s : Loop) : Prop :=
  MinBackoff cfg <= backoff s <= MaxBackoff cfg.

(** The goroutine has ended: it returned, a panic unwound it, or
    [runtime.Goexit] ended it. *)
Definition terminated (c : Cycle) : bool :=
  match c with
  | Stopped _ | Died _ _ | Exited _ => true
  | Next _ | Stuck _ => false
  end.

Definition exited (c : Cycle) : bool :=
  match c with
  | Exited _ => true
  | _ => false
  end.

Definition died (c : Cycle) : bool :=
  match c with
  | Died _ _ => true
  | _ => false
  end.

(** The goroutine sits inside a worker that never returns. *)
Definition stuck (c : Cycle) : bool :=
  match c with
  | Stuck _ => true
  | _ => false
  end.

Definition stopped (c : Cycle) : bool :=
  match c with
  | Stopped _ => true
  | _ => false
  end.

(** The value [recover()] hands to the deferred closure after [panic(v)]. *)
Definition payload (v : any) : any :=
  if is_nil v then PanicNilError else v.

(** The state at the head of the [for] after a pass that found the signal
    unfired and a worker call that ended in [s1]. *)
Definition after_wait (cfg : Config) (s1 : Loop) : Loop :=
  let s2 := logf cfg (MsgRestarting (backoff s1)) s1 in
  let s3 := time_Sleep (backoff s2) s2 in
  mkLoop (next (backoff s3) (MaxBackoff cfg)) (clock s3) (runs s3) (trace s3).

(** ** Arithmetic of the conversions *)

Lemma wrap64_id (z : Z) : is_int64 z -> wrap64 z = z.
Proof.
  unfold is_int64, min_int64, max_int64, wrap64. intros H.
  rewrite Z.mod_small; lia.
Qed.

Lemma wrap64_is_int64 (z : Z) : is_int64 (wrap64 z).
Proof.
  unfold is_int64, min_int64, max_int64, wrap64.
  pose proof (Z.mod_pos_bound (z + 2 ^ 63) (2 ^ 64) ltac:(lia)). lia.
Qed.

Lemma double_exact (d : Duration) :
  min_int64 <= 2 * d <= max_int64 -> double d = 2 * d.
Proof.
  intros H. unfold double. rewrite wrap64_id; [lia | unfold is_int64; lia].
Qed.

Lemma round_to_even_cases (m e : Z) :
  round_to_even m e = m / 2 ^ e * 2 ^ e \/
  round_to_even m e = (m / 2 ^ e + 1) * 2 ^ e.
Proof.
  unfold round_to_even.
  destruct (m mod 2 ^ e <? 2 ^ (e - 1)); [now left |].
  destruct (2 ^ (e - 1) <? m mod 2 ^ e); [now right |].
  destruct (Z.even (m / 2 ^ e)); [now left | now right].
Qed.

(** Rounding a magnitude of at least [2 ^ 53] stays within its binade. *)
Lemma round_to_even_binade (m : Z) :
  2 ^ 53 <= m ->
  2 ^ Z.log2 m <= round_to_even m (Z.log2 m - 52) <= 2 ^ (Z.log2 m + 1).
Proof.
  intros Hm.
  assert (Hpos : 0 < m) by lia.
  destruct (Z.log2_spec m Hpos) as [Hlo Hhi].
  assert (HL : 53 <= Z.log2 m).
  { change 53 with (Z.log2 (2 ^ 53)). now apply Z.log2_le_mono. }
  set (L := Z.log2 m) in *. set (e := L - 52).
  assert (He : 0 < 2 ^ e) by (apply Z.pow_pos_nonneg; lia).
  assert (HLe : 2 ^ L = 2 ^ 52 * 2 ^ e).
  { rewrite <- Z.pow_add_r by lia. f_equal. lia. }
  assert (HL1 : 2 ^ (L + 1) = 2 ^ 53 * 2 ^ e).
  { rewrite <- Z.pow_add_r by lia. f_equal. lia. }
  assert (Hq1 : 2 ^ 52 <= m / 2 ^ e).
  { apply Z.div_le_lower_bound; lia. }
  assert (Hq2 : m / 2 ^ e < 2 ^ 53).
  { apply Z.div_lt_upper_bound; [lia |]. unfold Z.succ in Hhi. lia. }
  rewrite HLe, HL1.
  destruct (round_to_even_cases m e) as [-> | ->]; nia.
Qed.

Lemma float64_exact (x : Z) : - 2 ^ 53 <= x <= 2 ^ 53 -> float64_of_int64 x = x.
Proof.
  intros H. unfold float64_of_int64.
  destruct (Z.ltb_spec (Z.abs x) (2 ^ 53)) as [|Hge]; [reflexivity |].
  assert (Hm : Z.abs x = 2 ^ 53) by lia.
  rewrite Hm. change (Z.log2 (2 ^ 53) - 52) with 1.
  change (round_to_even (2 ^ 53) 1) with (2 ^ 53).
  destruct x; simpl in *; lia.
Qed.

Lemma float64_opp (x : Z) : float64_of_int64 (- x) = - float64_of_int64 x.
Proof.
  unfold float64_of_int64. rewrite Z.abs_opp, Z.sgn_opp.
  destruct (Z.abs x <? 2 ^ 53); lia.
Qed.

(** An even value up to [2 ^ 54] has at most 53 significant bits. *)
Lemma float64_exact_even_nonneg (x : Z) :
  0 <= x <= 2 ^ 53 -> float64_of_int64 (2 * x) = 2 * x.
Proof.
  intros H. unfold float64_of_int64.
  destruct (Z.ltb_spec (Z.abs (2 * x)) (2 ^ 53)) as [|Hge]; [reflexivity |].
  rewrite Z.abs_eq in * by lia.
  rewrite Z.sgn_pos by lia.
  destruct (Z.eq_dec x (2 ^ 53)) as [-> | Hne]; [reflexivity |].
  assert (HL : Z.log2 (2 * x) = 53).
  { apply Z.log2_unique; [lia |]. change (2 ^ (53 + 1)) with (2 ^ 54). lia. }
  rewrite HL. change (53 - 52) with 1. unfold round_to_even.
  change (2 ^ 1) with 2. change (2 ^ (1 - 1)) with 1.
  rewrite (Z.mul_comm 2 x), Z.mod_mul, Z.div_mul by lia.
  change (0 <? 1) with true. cbv iota. lia.
Qed.

Lemma float64_exact_even (x : Z) :
  - 2 ^ 53 <= x <= 2 ^ 53 -> float64_of_int64 (2 * x) = 2 * x.
Proof.
  intros H. destruct (Z.neg_nonneg_cases x) as [Hneg | Hpos].
  - replace (2 * x) with (- (2 * - x)) by lia.
    rewrite float64_opp, float64_exact_even_nonneg; lia.
  - apply float64_exact_even_nonneg. lia.
Qed.

Lemma float64_ge (x : Z) : 2 ^ 53 <= x -> 2 ^ 53 <= float64_of_int64 x.
Proof.
  intros H. unfold float64_of_int64.
  rewrite Z.abs_eq by lia.
  destruct (Z.ltb_spec x (2 ^ 53)) as [|_]; [lia |].
  rewrite Z.sgn_pos by lia.
  pose proof (round_to_even_binade x H) as [Hlo _].
  assert (2 ^ 53 <= 2 ^ Z.log2 x).
  { apply Z.pow_le_mono_r; [lia |].
    change 53 with (Z.log2 (2 ^ 53)) at 1. now apply Z.log2_le_mono. }
  lia.
Qed.

Lemma float64_negative (x : Z) :
  is_int64 x -> x < 0 -> min_int64 <= float64_of_int64 x < 0.
Proof.
  unfold is_int64, min_int64, max_int64. intros Hr Hneg.
  destruct (Z.eq_dec x (- 2 ^ 63)) as [-> | Hne]; [now vm_compute |].
  unfold float64_of_int64.
  destruct (Z.ltb_spec (Z.abs x) (2 ^ 53)) as [|Hge]; [lia |].
  rewrite Z.sgn_neg by lia.
  pose proof (round_to_even_binade (Z.abs x) Hge) as [Hlo Hhi].
  assert (0 < 2 ^ Z.log2 (Z.abs x))
    by (apply Z.pow_pos_nonneg; [lia | apply Z.log2_nonneg]).
  assert (2 ^ (Z.log2 (Z.abs x) + 1) <= 2 ^ 63).
  { apply Z.pow_le_mono_r; [lia |].
    assert (Z.log2 (Z.abs x) < 63) by (apply Z.log2_lt_pow2; lia).
    lia. }
  lia.
Qed.

Lemma float64_nonneg (x : Z) : 0 <= x -> 0 <= float64_of_int64 x.
Proof.
  intros H. destruct (Z.le_gt_cases (2 ^ 53) x) as [Hge | Hlt].
  - pose proof (float64_ge x Hge). lia.
  - rewrite float64_exact; lia.
Qed.

Lemma float64_lower (x : Z) : is_int64 x -> min_int64 <= float64_of_int64 x.
Proof.
  intros H. destruct (Z.neg_nonneg_cases x) as [Hneg | Hpos].
  - now apply float64_negative.
  - pose proof (float64_nonneg x Hpos). unfold min_int64. lia.
Qed.

Lemma Duration_of_float64_id (f : float64) :
  is_int64 f -> Duration_of_float64 f = f.
Proof.
  unfold is_int64, Duration_of_float64. intros [Hlo Hhi].
  apply Z.leb_le in Hlo, Hhi. now rewrite Hlo, Hhi.
Qed.

(** ** The backoff update on values the float conversion keeps exact *)

Lemma next_is_min (current max : Duration) :
  - 2 ^ 53 <= current <= 2 ^ 53 -> - 2 ^ 53 <= max <= 2 ^ 53 ->
  next current max = Z.min (2 * current) max.
Proof.
  intros Hc Hm. unfold next, math_Min.
  rewrite double_exact by (unfold min_int64, max_int64; lia).
  rewrite float64_exact_even, (float64_exact max) by lia.
  apply Duration_of_float64_id. unfold is_int64, min_int64, max_int64. lia.
Qed.

Lemma next_clamps (current max : Duration) :
  0 <= max <= 2 ^ 53 -> max <= current -> 2 * current <= max_int64 ->
  next current max = max.
Proof.
  intros Hm Hle Hov. unfold next, math_Min.
  rewrite double_exact by (unfold min_int64, max_int64 in *; lia).
  rewrite (float64_exact max) by lia.
  assert (max <= float64_of_int64 (2 * current)).
  { destruct (Z.le_gt_cases (2 ^ 53) (2 * current)) as [Hge | Hlt].
    - pose proof (float64_ge _ Hge). lia.
    - rewrite float64_exact; lia. }
  rewrite Z.min_r by lia.
  apply Duration_of_float64_id. unfold is_int64, min_int64, max_int64. lia.
Qed.

Lemma next_negative (current max : Duration) :
  is_int64 max -> max < 0 -> min_int64 <= next current max < 0.
Proof.
  intros Hr Hneg. unfold next, math_Min.
  pose proof (float64_negative max Hr Hneg).
  pose proof (float64_lower _ (wrap64_is_int64 (current * 2))).
  fold (double current) in *.
  rewrite Duration_of_float64_id; unfold is_int64, max_int64 in *; lia.
Qed.

(** ** The wrapper around the worker *)

Lemma payload_not_nil (v : any) : is_nil (payload v) = false.
Proof. now destruct v. Qed.

Lemma gopanic_payload (v : any) : gopanic v = Panicking (payload v).
Proof. now destruct v. Qed.

Lemma log_returns_None (cfg : Config) :
  log_returns cfg = true -> output_panics (logger_of cfg) = None.
Proof. unfold log_returns. now destruct (output_panics (logger_of cfg)). Qed.

Lemma invoke_Return (cfg : Config) (env : Env) (s : Loop) (d : N) :
  worker env (runs s) (clock s) = Return d ->
  invoke cfg env s = Finished Normal (tick (Z.of_N d) (enter s)).
Proof. intros H. unfold invoke, call_worker. now rewrite H. Qed.

(** After a panic of the worker the wrapper ends as the crash notice does. *)
Lemma invoke_Panic (cfg : Config) (env : Env) (s : Loop) (d : N) (v : any) :
  worker env (runs s) (clock s) = Panic d v ->
  invoke cfg env s =
  Finished (match output_panics (logger_of cfg) with
            | Some e => Panicking e
            | None => Normal
            end)
           (logf cfg (MsgCrashed (payload v)) (tick (Z.of_N d) (enter s))).
Proof.
  intros H. unfold invoke, call_worker. rewrite H, gopanic_payload.
  unfold deferred, recover, Printf. rewrite payload_not_nil. cbn [negb].
  now destruct (output_panics (logger_of cfg)).
Qed.

Lemma invoke_Goexit (cfg : Config) (env : Env) (s : Loop) (d : N) :
  worker env (runs s) (clock s) = Goexit d ->
  invoke cfg env s = Finished Exiting (tick (Z.of_N d) (enter s)).
Proof. intros H. unfold invoke, call_worker. now rewrite H. Qed.

Lemma invoke_Block (cfg : Config) (env : Env) (s : Loop) :
  worker env (runs s) (clock s) = Block ->
  invoke cfg env s = Hangs (enter s).
Proof. intros H. unfold invoke, call_worker. now rewrite H. Qed.

(** ** The loop *)

(** One pass, by what the signal, the worker and the logger do. *)
Lemma cycle_unfold (cfg : Config) (env : Env) (s : Loop) :
  cycle cfg env s =
  if ctx_done env (clock s) then
    match output_panics (logger_of cfg) with
    | Some e => Died e (logf cfg MsgStopped s)
    | None => Stopped (logf cfg MsgStopped s)
    end
  else
    match worker env (runs s) (clock s) with
    | Return d =>
        match output_panics (logger_of cfg) with
        | Some e =>
            Died e (logf cfg (MsgRestarting (backoff s))
                         (tick (Z.of_N d) (enter s)))
        | None => Next (after_wait cfg (tick (Z.of_N d) (enter s)))
        end
    | Panic d v =>
        match output_panics (logger_of cfg) with
        | Some e =>
            Died e (logf cfg (MsgCrashed (payload v))
                         (tick (Z.of_N d) (enter s)))
        | None =>
            Next (after_wait cfg (logf cfg (MsgCrashed (payload v))
                                       (tick (Z.of_N d) (enter s))))
        end
    | Goexit d => Exited (tick (Z.of_N d) (enter s))
    | Block => Stuck (enter s)
    end.
Proof.
  unfold cycle, Printf. destruct (ctx_done env (clock s)); [reflexivity |].
  destruct (worker env (runs s) (clock s)) as [d | d v | d |] eqn:E.
  - rewrite (invoke_Return _ _ _ _ E).
    now destruct (output_panics (logger_of cfg)).
  - rewrite (invoke_Panic _ _ _ _ _ E).
    now destruct (output_panics (logger_of cfg)).
  - now rewrite (invoke_Goexit _ _ _ _ E).
  - now rewrite (invoke_Block _ _ _ E).
Qed.

Ltac run_simpl :=
  unfold crash_notices, restart_notices, stop_notices, messages, sleeps,
    invoke_times, after_wait, time_Sleep, logf, emit, tick, enter;
  cbn [trace backoff clock runs state_of];
  repeat progress (rewrite ?flat_map_app; cbn [flat_map app]);
  rewrite ?app_nil_r.

(** What a pass that comes back to the head of the [for] has done. *)
Lemma cycle_Next_effect (cfg : Config) (env : Env) (s s' : Loop) :
  cycle cfg env s = Next s' ->
  ctx_done env (clock s) = false /\
  log_returns cfg = true /\
  comes_back (worker env (runs s) (clock s)) = true /\
  runs s' = S (runs s) /\
  clock s' = clock s + elapsed_of (worker env (runs s) (clock s))
             + Z.max 0 (backoff s) /\
  backoff s' = next (backoff s) (MaxBackoff cfg) /\
  invoke_times s' = invoke_times s ++ [clock s] /\
  sleeps s' = sleeps s ++ [backoff s] /\
  restart_notices s' = restart_notices s ++ [backoff s] /\
  stop_notices s' = stop_notices s.
Proof.
  intros E. rewrite cycle_unfold in E. unfold log_returns.
  destruct (ctx_done env (clock s)); [| split; [reflexivity |]];
    destruct (output_panics (logger_of cfg)); try discriminate;
    destruct (worker env (runs s) (clock s)) as [d | d v | d |];
    try discriminate; inversion E; subst;
    cbn [comes_back elapsed_of]; run_simpl; repeat split; lia.
Qed.

(** Induction over the passes of a run: [I] holds at the head of every
    pass, [J] of wherever the run is. *)
Lemma loop_ind_cycle (I : Loop -> Prop) (J : Cycle -> Prop)
    (cfg : Config) (env : Env) :
  (forall s, I s -> J (Next s)) ->
  (forall s, I s -> J (cycle cfg env s)) ->
  (forall s s', I s -> cycle cfg env s = Next s' -> I s') ->
  forall (n : nat) (s : Loop), I s -> J (loop n cfg env s).
Proof.
  intros Hhead Hcycle Hstep. induction n as [| n IH]; intros s Hs.
  - now apply Hhead.
  - cbn [loop]. pose proof (Hcycle s Hs) as HJ.
    destruct (cycle cfg env s) as [s' | s' | s' | v s' | s'] eqn:E;
      try exact HJ.
    apply IH. now apply (Hstep s).
Qed.

(** More fuel continues a run from where it was. *)
Lemma loop_add (cfg : Config) (env : Env) (m : nat) :
  forall (n : nat) (s : Loop),
    loop (n + m) cfg env s =
    match loop n cfg env s with
    | Next s' => loop m cfg env s'
    | c => c
    end.
Proof.
  induction n as [| n IH]; intros s; [reflexivity |].
  cbn [Nat.add loop]. destruct (cycle cfg env s); try reflexivity. apply IH.
Qed.

Lemma after_wait_backoff (cfg : Config) (s1 : Loop) :
  backoff (after_wait cfg s1) = next (backoff s1) (MaxBackoff cfg).
Proof. reflexivity. Qed.

Lemma after_wait_clock (cfg : Config) (s1 : Loop) :
  clock (after_wait cfg s1) = clock s1 + Z.max 0 (backoff s1).
Proof. reflexivity. Qed.

(** Wherever a pass ends, the backoff is the one it began with or its
    update. *)
Lemma cycle_backoff (cfg : Config) (env : Env) (s : Loop) :
  backoff (state_of (cycle cfg env s)) = backoff s \/
  backoff (state_of (cycle cfg env s)) = next (backoff s) (MaxBackoff cfg).
Proof.
  rewrite cycle_unfold.
  destruct (ctx_done env (clock s));
    [| destruct (worker env (runs s) (clock s))];
    destruct (output_panics (logger_of cfg)); cbn; auto.
Qed.

(** A property of the backoff that the update preserves holds wherever the
    goroutine is. *)
Lemma loop_preserves (P : Duration -> Prop) (cfg : Config) (env : Env) :
  (forall b, P b -> P (next b (MaxBackoff cfg))) ->
  forall (n : nat) (s : Loop),
    P (backoff s) -> P (backoff (state_of (loop n cfg env s))).
Proof.
  intros Hstep.
  apply (loop_ind_cycle (fun s => P (backoff s))
           (fun r => P (backoff (state_of r))) cfg env).
  - intros s H. exact H.
  - intros s H. destruct (cycle_backoff cfg env s) as [-> | ->]; auto.
  - intros s s' H E.
    destruct (cycle_Next_effect _ _ _ _ E) as (_ & _ & _ & _ & _ & -> & _).
    auto.
Qed.

(** The goroutine returns only from the head of the [for], on a fired
    signal. *)
Lemma loop_Stopped (cfg : Config) (env : Env) :
  forall (n : nat) (s s' : Loop),
    loop n cfg env s = Stopped s' ->
    exists (k : nat) (s0 : Loop),
      (k < n)%nat /\ loop k cfg env s = Next s0 /\
      ctx_done env (clock s0) = true /\ s' = logf cfg MsgStopped s0.
Proof.
  induction n as [| n IH]; intros s s' H; [discriminate |].
  cbn [loop] in H.
  destruct (cycle cfg env s) as [s1 | s1 | s1 | v s1 | s1] eqn:E;
    try discriminate.
  - inversion H; subst. exists O, s. rewrite cycle_unfold in E.
    destruct (ctx_done env (clock s)).
    + destruct (output_panics (logger_of cfg)); inversion E.
      repeat split. lia.
    + destruct (worker env (runs s) (clock s));
        destruct (output_panics (logger_of cfg)); discriminate.
  - destruct (IH _ _ H) as (k & s0 & Hk & Hl & Hd & ->).
    exists (S k), s0. repeat split; [lia | | exact Hd].
    cbn [loop]. now rewrite E.
Qed.

Lemma backoff_after_shift (max b : Duration) (i : nat) :
  backoff_after max (next b max) i = backoff_after max b (S i).
Proof.
  induction i as [| i IH]; [reflexivity |].
  cbn [backoff_after] in *. now rewrite IH.
Qed.

(** After [n] completed passes the goroutine holds the [n]-th backoff and
    has slept the first [n] of them, in order. *)
Lemma loop_Next (cfg : Config) (env : Env) :
  forall (n : nat) (s s' : Loop),
    loop n cfg env s = Next s' ->
    backoff s' = backoff_after (MaxBackoff cfg) (backoff s) n /\
    sleeps s' =
    sleeps s ++ map (backoff_after (MaxBackoff cfg) (backoff s)) (seq 0 n).
Proof.
  induction n as [| n IH]; intros s s' H.
  - inversion H; subst. cbn. now rewrite app_nil_r.
  - cbn [loop] in H.
    destruct (cycle cfg env s) as [s1 | s1 | s1 | v s1 | s1] eqn:E;
      try discriminate.
    destruct (cycle_Next_effect _ _ _ _ E)
      as (_ & _ & _ & _ & _ & Hb & _ & Hs & _).
    destruct (IH _ _ H) as [Hb' Hs']. rewrite Hb in Hb', Hs'. split.
    + now rewrite Hb', backoff_after_shift.
    + rewrite Hs', Hs, <- app_assoc. f_equal. cbn [seq map app backoff_after].
      f_equal. rewrite <- seq_shift, map_map.
      apply map_ext. intros i. apply backoff_after_shift.
Qed.

(** With a logger whose calls return and a worker that comes back, the
    goroutine goes from pass to pass for as long as the signal is unfired. *)
Lemma loop_keeps_going (cfg : Config) (env : Env) :
  log_returns cfg = true -> cancel_at env = None ->
  (forall k t, comes_back (worker env k t) = true) ->
  forall (n : nat) (s : Loop),
    exists s', loop n cfg env s = Next s' /\ runs s' = (runs s + n)%nat.
Proof.
  intros Hlog Hc Hw. induction n as [| n IH]; intros s.
  - exists s. split; [reflexivity | lia].
  - cbn [loop]. rewrite cycle_unfold. unfold ctx_done. rewrite Hc.
    rewrite (log_returns_None _ Hlog). specialize (Hw (runs s) (clock s)).
    destruct (worker env (runs s) (clock s)) as [d | d v | d |];
      try discriminate.
    + destruct (IH (after_wait cfg (tick (Z.of_N d) (enter s))))
        as (s' & Hl & Hr).
      exists s'. split; [exact Hl |]. rewrite Hr. cbn. lia.
    + destruct (IH (after_wait cfg (logf cfg (MsgCrashed (payload v))
                                         (tick (Z.of_N d) (enter s)))))
        as (s' & Hl & Hr).
      exists s'. split; [exact Hl |]. rewrite Hr. cbn. lia.
Qed.

Lemma backoff_after_bounds (min max : Duration) :
  0 < min <= max -> max <= 2 ^ 53 ->
  forall i, min <= backoff_after max min i <= max.
Proof.
  intros Hc Hm. induction i as [| i IH]; cbn [backoff_after]; [lia |].
  rewrite next_is_min by lia. lia.
Qed.

(** ** The backoff policy *)

(** C2, as the code has it: the update goes through [float64], and it is the
    exact minimum of twice the current backoff and [MaxBackoff] whenever
    both the current backoff and [MaxBackoff] lie within [2^53] nanoseconds
    of zero, where the conversions lose nothing. *)
Theorem next_exact_within_float_precision (current max : Duration) :
  - 2 ^ 53 <= current <= 2 ^ 53 -> - 2 ^ 53 <= max <= 2 ^ 53 ->
  next current max =
  Duration_of_float64
    (math_Min (float64_of_int64 (double current)) (float64_of_int64 max)) /\
  next current max = Z.min (2 * current) max.
Proof.
  intros Hc Hm. split; [reflexivity | now apply next_is_min].
Qed.

(** C3, within the range the float conversion keeps exact: for a
    configuration with [0 < MinBackoff <= MaxBackoff <= 2^53] the backoff of
    the goroutine starts at [MinBackoff], every update keeps it between
    [MinBackoff] and [MaxBackoff], and so it lies between them wherever the
    goroutine is. *)
Theorem backoff_stays_in_bounds (cfg : Config) (env : Env) (t0 : Z)
    (fuel : nat) :
  0 < MinBackoff cfg <= MaxBackoff cfg -> MaxBackoff cfg <= 2 ^ 53 ->
  backoff (spawn cfg t0) = MinBackoff cfg /\
  (forall b, MinBackoff cfg <= b <= MaxBackoff cfg ->
             MinBackoff cfg <= next b (MaxBackoff cfg) <= MaxBackoff cfg) /\
  in_bounds cfg (state_of (loop fuel cfg env (spawn cfg t0))).
Proof.
  intros Hc Hm.
  assert (Hstep : forall b, MinBackoff cfg <= b <= MaxBackoff cfg ->
            MinBackoff cfg <= next b (MaxBackoff cfg) <= MaxBackoff cfg).
  { intros b Hb. rewrite next_is_min by lia. lia. }
  repeat split; try (cbn; lia); try (apply Hstep; assumption).
  - apply (loop_preserves
             (fun b => MinBackoff cfg <= b <= MaxBackoff cfg) cfg env Hstep).
    cbn. lia.
  - apply (loop_preserves
             (fun b => MinBackoff cfg <= b <= MaxBackoff cfg) cfg env Hstep).
    cbn. lia.
Qed.

(** C4, as the code has it: with [0 < MaxBackoff < MinBackoff] (and
    [MaxBackoff <= 2^53], [2 * MinBackoff] an [int64]) only the first wait
    exceeds [MaxBackoff]; it is [MinBackoff]. The first update clamps the
    backoff to [MaxBackoff], and every later wait equals [MaxBackoff]. *)
Theorem inverted_bounds_clamp_after_first_wait (cfg : Config) :
  0 < MaxBackoff cfg < MinBackoff cfg -> MaxBackoff cfg <= 2 ^ 53 ->
  2 * MinBackoff cfg <= max_int64 ->
  wait cfg 0 = MinBackoff cfg /\ MaxBackoff cfg < wait cfg 0 /\
  forall i, wait cfg (S i) = MaxBackoff cfg.
Proof.
  intros Hc Hm Hov. repeat split; [cbn; lia |].
  induction i as [| i IH]; unfold wait in *; cbn [backoff_after] in *.
  - apply next_clamps; lia.
  - rewrite IH. apply next_clamps; unfold max_int64; lia.
Qed.

(** C5, within the range the float conversion keeps exact: for a
    configuration with [0 < MinBackoff <= MaxBackoff <= 2^53] the waits of
    consecutive passes never decrease, never exceed [MaxBackoff], stay at
    [MaxBackoff] once they reach it ([MaxBackoff] is a fixed point of the
    update), and they are the durations the goroutine sleeps, in order. *)
Theorem waits_nondecreasing_and_clamped (cfg : Config) :
  0 < MinBackoff cfg <= MaxBackoff cfg -> MaxBackoff cfg <= 2 ^ 53 ->
  (forall i, wait cfg i <= wait cfg (S i)) /\
  (forall i, wait cfg i <= MaxBackoff cfg) /\
  next (MaxBackoff cfg) (MaxBackoff cfg) = MaxBackoff cfg /\
  (forall i j, wait cfg i = MaxBackoff cfg -> (i <= j)%nat ->
               wait cfg j = MaxBackoff cfg) /\
  (forall env t0 n s', loop n cfg env (spawn cfg t0) = Next s' ->
                       sleeps s' = map (wait cfg) (seq 0 n)).
Proof.
  intros Hc Hm.
  pose proof (backoff_after_bounds _ _ Hc Hm) as Hb.
  assert (Hfix : next (MaxBackoff cfg) (MaxBackoff cfg) = MaxBackoff cfg).
  { rewrite next_is_min by lia. lia. }
  repeat split.
  - intros i. unfold wait. cbn [backoff_after].
    specialize (Hb i). rewrite next_is_min by lia. lia.
  - intros i. apply Hb.
  - exact Hfix.
  - intros i j Hi Hij. induction Hij as [| j Hij IH]; [exact Hi |].
    unfold wait in *. cbn [backoff_after]. now rewrite IH.
  - intros env t0 n s' H. now destruct (loop_Next cfg env n _ _ H) as [_ ->].
Qed.

(** ** Configuration resolution *)

Lemma resolve_fields (cfg : Config) :
  resolve cfg =
  mkConfig (if MinBackoff cfg =? 0 then 1 * Second else MinBackoff cfg)
           (if MaxBackoff cfg =? 0 then 30 * Second else MaxBackoff cfg)
           (Some (logger_of cfg)).
Proof.
  destruct cfg as [mn mx lg]. unfold resolve, logger_of.
  cbn [MinBackoff MaxBackoff Logger].
  destruct (mn =? 0); cbn [MinBackoff MaxBackoff Logger];
    destruct (mx =? 0); cbn [MinBackoff MaxBackoff Logger];
    destruct lg; reflexivity.
Qed.

(** C9: [Start] resolves every configuration and rejects none: a zero
    [MinBackoff] becomes one second, a zero [MaxBackoff] thirty seconds, a
    [nil] [Logger] the default logger; every other field is kept; and the
    goroutine starts on the resolved values, also when [MinBackoff] exceeds
    [MaxBackoff]. The all-zero configuration resolves to [DefaultConfig],
    which resolves to itself. *)
Theorem resolve_defaults_only (cfg : Config) :
  MinBackoff (resolve cfg) =
    (if MinBackoff cfg =? 0 then 1000000000 else MinBackoff cfg) /\
  MaxBackoff (resolve cfg) =
    (if MaxBackoff cfg =? 0 then 30000000000 else MaxBackoff cfg) /\
  Logger (resolve cfg) =
    Some (match Logger cfg with Some l => l | None => log_Default end) /\
  (forall l, MinBackoff cfg <> 0 -> MaxBackoff cfg <> 0 -> Logger cfg = Some l ->
             resolve cfg = cfg) /\
  (forall fuel env t0,
      Start fuel env t0 cfg = loop fuel (resolve cfg) env (spawn (resolve cfg) t0)
      /\ backoff (spawn (resolve cfg) t0) = MinBackoff (resolve cfg)) /\
  resolve (mkConfig 0 0 None) = DefaultConfig /\
  resolve DefaultConfig = DefaultConfig.
Proof.
  assert (Hstart : forall fuel env t0,
    Start fuel env t0 cfg = loop fuel (resolve cfg) env (spawn (resolve cfg) t0)
    /\ backoff (spawn (resolve cfg) t0) = MinBackoff (resolve cfg))
    by (intros; split; reflexivity).
  rewrite resolve_fields in *. cbn [MinBackoff MaxBackoff Logger].
  repeat split; try apply Hstart.
  intros l Hmn Hmx Hl. destruct cfg as [mn mx lg].
  cbn [MinBackoff MaxBackoff Logger] in *. unfold logger_of.
  cbn [Logger]. subst lg.
  destruct (Z.eqb_spec mn 0), (Z.eqb_spec mx 0); congruence.
Qed.

(** C10: only the zero value is defaulted, and a negative backoff reaches
    the loop. On a run of [Start] that makes [n + 1] passes (signal unfired,
    a logger whose calls return, a worker that comes back), a negative
    [MinBackoff] is kept and is the first duration slept; a negative
    [MaxBackoff] is kept and every later duration slept is negative, as is
    the backoff held then; and a pass that sleeps a negative backoff is back
    at the head of the [for] the instant the worker call ended. *)
Theorem negative_backoff_not_defaulted (cfg : Config) (env : Env) (t0 : Z)
    (n : nat) :
  is_int64 (MaxBackoff cfg) ->
  cancel_at env = None -> log_returns (resolve cfg) = true ->
  (forall k t, comes_back (worker env k t) = true) ->
  exists s',
    Start (S n) env t0 cfg = Next s' /\
    List.length (sleeps s') = S n /\
    (MinBackoff cfg < 0 ->
     MinBackoff (resolve cfg) = MinBackoff cfg /\
     hd 0 (sleeps s') = MinBackoff cfg) /\
    (MaxBackoff cfg < 0 ->
     MaxBackoff (resolve cfg) = MaxBackoff cfg /\
     Forall (fun d => d < 0) (tl (sleeps s')) /\ backoff s' < 0) /\
    (forall k s0 s1,
        loop k (resolve cfg) env (spawn (resolve cfg) t0) = Next s0 ->
        cycle (resolve cfg) env s0 = Next s1 ->
        backoff s0 < 0 ->
        clock s1 = clock s0 + elapsed_of (worker env (runs s0) (clock s0))).
Proof.
  intros Hr Hc Hlog Hw. unfold Start. cbv zeta.
  destruct (loop_keeps_going (resolve cfg) env Hlog Hc Hw (S n)
              (spawn (resolve cfg) t0)) as (s' & Hl & _).
  exists s'. split; [exact Hl |].
  destruct (loop_Next _ _ _ _ _ Hl) as [Hb Hs].
  cbn [spawn backoff sleeps trace flat_map app] in Hb, Hs.
  assert (Hmax : MaxBackoff cfg < 0 ->
                 MaxBackoff (resolve cfg) = MaxBackoff cfg).
  { intros Hneg. rewrite resolve_fields. cbn [MaxBackoff].
    destruct (Z.eqb_spec (MaxBackoff cfg) 0); [lia | reflexivity]. }
  assert (Hmin : MinBackoff cfg < 0 ->
                 MinBackoff (resolve cfg) = MinBackoff cfg).
  { intros Hneg. rewrite resolve_fields. cbn [MinBackoff].
    destruct (Z.eqb_spec (MinBackoff cfg) 0); [lia | reflexivity]. }
  repeat split.
  - rewrite Hs, length_map, length_seq. reflexivity.
  - now apply Hmin.
  - rewrite Hs. cbn [seq map hd backoff_after]. now apply Hmin.
  - now apply Hmax.
  - rewrite Hs. cbn [seq map tl]. apply Forall_forall. intros d Hd.
    apply in_map_iff in Hd. destruct Hd as (i & <- & Hi).
    apply in_seq in Hi. destruct i as [| i]; [lia |].
    cbn [backoff_after]. rewrite (Hmax H).
    apply next_negative; [exact Hr | exact H].
  - rewrite Hb. cbn [backoff_after]. rewrite (Hmax H).
    apply next_negative; [exact Hr | exact H].
  - intros k s0 s1 _ E Hneg.
    destruct (cycle_Next_effect _ _ _ _ E) as (_ & _ & _ & _ & -> & _). lia.
Qed.

(** ** Crash isolation *)

(** C1, on the configuration the tests build: with [discardLogger] and a
    worker that panics with ["boom"], [recover()] takes the worker's panic,
    but the crash notice is an output call on the [nil] writer and panics
    inside the deferred closure; that panic leaves the wrapper, and every
    run of [Start] ends after one invocation with the goroutine unwound. *)
Theorem crash_notice_panic_unwinds_goroutine :
  let env := mkEnv None always_panics in
  let s := spawn discard_config 0 in
  let s1 := logf discard_config (MsgCrashed (value "boom"))
                 (tick 1000 (enter s)) in
  resolve discard_config = discard_config /\
  call_worker env s = Finished (Panicking (value "boom")) (tick 1000 (enter s)) /\
  recover (Panicking (value "boom")) = (value "boom", Normal) /\
  invoke discard_config env s = Finished (Panicking nil_dereference) s1 /\
  cycle discard_config env s = Died nil_dereference s1 /\
  (forall fuel, Start (S fuel) env 0 discard_config = Died nil_dereference s1) /\
  runs s1 = 1%nat /\ sleeps s1 = [] /\ restart_notices s1 = [].
Proof.
  cbv zeta. repeat split.
Qed.

(** X12: with a logger whose calls return, a panic of the worker, whatever
    its value, ends inside the wrapper: the worker call unwinds with the panic,
    the wrapper returns normally, the pass goes on to the wait and back to
    the head of the [for]; and with a worker that never calls
    [runtime.Goexit] no run ends unwound. *)
Theorem worker_panic_contained (cfg : Config) (env : Env) (s : Loop)
    (d : N) (v : any) :
  log_returns cfg = true ->
  worker env (runs s) (clock s) = Panic d v ->
  ctx_done env (clock s) = false ->
  (exists s1,
      call_worker env s = Finished (Panicking (payload v)) s1 /\
      invoke cfg env s = Finished Normal (logf cfg (MsgCrashed (payload v)) s1) /\
      cycle cfg env s =
      Next (after_wait cfg (logf cfg (MsgCrashed (payload v)) s1))) /\
  (forall env' s' fuel, died (loop fuel cfg env' s') = false).
Proof.
  intros Hlog Hw Hd. pose proof (log_returns_None _ Hlog) as Hout. split.
  - exists (tick (Z.of_N d) (enter s)). repeat split.
    + unfold call_worker. now rewrite Hw, gopanic_payload.
    + now rewrite (invoke_Panic _ _ _ _ _ Hw), Hout.
    + now rewrite cycle_unfold, Hd, Hw, Hout.
  - intros env' s' fuel.
    apply (loop_ind_cycle (fun _ => True) (fun r => died r = false) cfg env');
      auto.
    intros s0 _. rewrite cycle_unfold, Hout.
    destruct (ctx_done env' (clock s0));
      [| destruct (worker env' (runs s0) (clock s0))]; reflexivity.
Qed.

(** C8: one invocation issues a crash notice exactly when the worker
    panicked. A panicking worker makes the wrapper issue one notice carrying
    the recovered value, which is never [nil], and the wrapper returns
    normally when that output call does; a worker that returns, that calls
    [runtime.Goexit] or that never returns adds nothing to the log. *)
Theorem crash_notice_iff_panic (cfg : Config) (env : Env) (s : Loop) :
  match worker env (runs s) (clock s) with
  | Panic d v =>
      exists c s1, invoke cfg env s = Finished c s1 /\
                   (log_returns cfg = true -> c = Normal) /\
                   messages s1 = messages s ++ [MsgCrashed (payload v)] /\
                   crash_notices s1 = crash_notices s ++ [payload v] /\
                   is_nil (payload v) = false
  | Return d =>
      exists s1, invoke cfg env s = Finished Normal s1 /\
                 messages s1 = messages s /\
                 crash_notices s1 = crash_notices s
  | Goexit d =>
      exists s1, invoke cfg env s = Finished Exiting s1 /\
                 messages s1 = messages s /\
                 crash_notices s1 = crash_notices s
  | Block =>
      exists s1, invoke cfg env s = Hangs s1 /\
                 messages s1 = messages s /\
                 crash_notices s1 = crash_notices s
  end.
Proof.
  destruct (worker env (runs s) (clock s)) as [d | d v | d |] eqn:E.
  - eexists. split; [apply (invoke_Return _ _ _ _ E) |].
    run_simpl. split; reflexivity.
  - do 2 eexists. split; [apply (invoke_Panic _ _ _ _ _ E) |].
    split; [intros Hlog; now rewrite (log_returns_None _ Hlog) |].
    run_simpl. repeat split. apply payload_not_nil.
  - eexists. split; [apply (invoke_Goexit _ _ _ _ E) |].
    run_simpl. split; reflexivity.
  - eexists. split; [apply (invoke_Block _ _ _ E) |].
    run_simpl. split; reflexivity.
Qed.

(** ** Termination of the loop *)

(** C6, as the code has it: the goroutine returns only from the head of the
    [for] on a fired signal: a run that has stopped reached the head of some
    pass in a state whose clock the signal had fired by, and only logged the
    stop notice there. With a logger whose calls return and a worker that
    never calls [runtime.Goexit], no run dies or exits, no run has ended
    while the signal is unfired, and each pass of a worker that comes back
    leads to the next. A worker call that ends in [runtime.Goexit] ends the
    goroutine on the spot, with no stop notice. *)
Theorem stops_only_on_cancellation (cfg : Config) (env : Env) (s : Loop)
    (fuel : nat) :
  (forall s', loop fuel cfg env s = Stopped s' ->
     exists k s0 c,
       (k < fuel)%nat /\ loop k cfg env s = Next s0 /\
       cancel_at env = Some c /\ c <= clock s0 /\
       s' = logf cfg MsgStopped s0) /\
  (log_returns cfg = true -> (forall k t d, worker env k t <> Goexit d) ->
   died (loop fuel cfg env s) = false /\
   exited (loop fuel cfg env s) = false /\
   (cancel_at env = None -> terminated (loop fuel cfg env s) = false)) /\
  (log_returns cfg = true -> cancel_at env = None ->
   (forall k t, comes_back (worker env k t) = true) ->
   exists s', loop fuel cfg env s = Next s' /\
              runs s' = (runs s + fuel)%nat) /\
  (forall s0 d, worker env (runs s0) (clock s0) = Goexit d ->
                ctx_done env (clock s0) = false ->
                cycle cfg env s0 = Exited (tick (Z.of_N d) (enter s0))).
Proof.
  assert (Hstop : forall s', loop fuel cfg env s = Stopped s' ->
            exists k s0 c,
              (k < fuel)%nat /\ loop k cfg env s = Next s0 /\
              cancel_at env = Some c /\ c <= clock s0 /\
              s' = logf cfg MsgStopped s0).
  { intros s' H.
    destruct (loop_Stopped cfg env fuel s s' H) as (k & s0 & Hk & Hl & Hd & ->).
    unfold ctx_done in Hd. destruct (cancel_at env) as [c |] eqn:Ec;
      [| discriminate].
    exists k, s0, c. repeat split; auto. now apply Z.leb_le. }
  split; [exact Hstop |]. split; [| split].
  - intros Hlog Hw. pose proof (log_returns_None _ Hlog) as Hout.
    assert (H : died (loop fuel cfg env s) = false /\
                exited (loop fuel cfg env s) = false).
    { apply (loop_ind_cycle (fun _ => True)
               (fun r => died r = false /\ exited r = false) cfg env); auto.
      intros s0 _. rewrite cycle_unfold, Hout.
      destruct (ctx_done env (clock s0)); [now split |].
      destruct (worker env (runs s0) (clock s0)) eqn:E; try now split.
      exfalso. exact (Hw _ _ _ E). }
    destruct H as [Hdied Hexit]. repeat split; [exact Hdied | exact Hexit |].
    intros Hc. destruct (loop fuel cfg env s) as [s' | | | |] eqn:E;
      try reflexivity; try discriminate.
    destruct (Hstop s' eq_refl) as (_ & _ & c & _ & _ & Hc' & _).
    congruence.
  - intros Hlog Hc Hw. now apply loop_keeps_going.
  - intros s0 d Hw Hd. now rewrite cycle_unfold, Hd, Hw.
Qed.

(** C7: the wait takes no notice of the signal. If the signal fires while
    the goroutine sleeps after a worker call, the pass still sleeps the whole
    backoff and returns to the head of the [for] at the end of it; the
    signal is seen there, the goroutine logs the stop notice and returns
    without another invocation, later than the signal by less than the
    backoff just slept. (The logger's calls return: the pass reaches its
    wait.) *)
Theorem wait_ignores_cancellation (cfg : Config) (env : Env) (s s1 : Loop)
    (c : Z) :
  log_returns cfg = true ->
  cancel_at env = Some c ->
  invoke cfg env s = Finished Normal s1 ->
  clock s1 < c <= clock s1 + backoff s1 ->
  let s2 := after_wait cfg s1 in
  cycle cfg env s = Next s2 /\
  In (EvSleep (clock s1) (backoff s1)) (trace s2) /\
  clock s2 = clock s1 + backoff s1 /\
  cycle cfg env s2 = Stopped (logf cfg MsgStopped s2) /\
  runs (logf cfg MsgStopped s2) = runs s1 /\
  0 <= clock (logf cfg MsgStopped s2) - c < backoff s1.
Proof.
  intros Hlog Hc Hi Ht s2. pose proof (log_returns_None _ Hlog) as Hout.
  assert (Hclk : clock s <= clock s1).
  { unfold invoke, call_worker in Hi.
    destruct (worker env (runs s) (clock s)) as [d | d v | d |];
      try discriminate.
    - inversion Hi; subst. cbn. lia.
    - rewrite gopanic_payload in Hi. unfold deferred, recover, Printf in Hi.
      rewrite payload_not_nil, Hout in Hi. cbn [negb] in Hi.
      inversion Hi; subst. cbn. lia. }
  assert (Hclock : clock s2 = clock s1 + backoff s1).
  { unfold s2. rewrite after_wait_clock. lia. }
  assert (Hnot : ctx_done env (clock s) = false).
  { unfold ctx_done. rewrite Hc. apply Z.leb_gt. lia. }
  assert (Hdone : ctx_done env (clock s2) = true).
  { unfold ctx_done. rewrite Hc. apply Z.leb_le. lia. }
  repeat split.
  - unfold cycle, Printf. now rewrite Hnot, Hi, Hout.
  - unfold s2, after_wait, time_Sleep, logf, emit, tick. cbn [trace backoff clock].
    apply in_or_app. right. now left.
  - exact Hclock.
  - unfold cycle, Printf. now rewrite Hdone, Hout.
  - change (clock (logf cfg MsgStopped s2)) with (clock s2). lia.
  - change (clock (logf cfg MsgStopped s2)) with (clock s2). lia.
Qed.

(** ** Further properties of the backoff update *)

Lemma round_to_even_error (m e : Z) :
  0 < e -> Z.abs (round_to_even m e - m) <= 2 ^ (e - 1).
Proof.
  intros He.
  assert (HB : 2 ^ e = 2 * 2 ^ (e - 1)).
  { rewrite <- Z.pow_succ_r by lia. f_equal. lia. }
  assert (Hh : 0 < 2 ^ (e - 1)) by (apply Z.pow_pos_nonneg; lia).
  pose proof (Z.div_mod m (2 ^ e) ltac:(lia)) as Hm.
  pose proof (Z.mod_pos_bound m (2 ^ e) ltac:(lia)) as Hr.
  unfold round_to_even.
  set (q := m / 2 ^ e) in *. set (r := m mod 2 ^ e) in *.
  set (B := 2 ^ e) in *. set (h := 2 ^ (e - 1)) in *.
  rewrite (Z.mul_comm B q) in Hm.
  destruct (Z.ltb_spec r h); [lia |].
  destruct (Z.ltb_spec h r);
    [replace ((q + 1) * B) with (q * B + B) by ring; lia |].
  destruct (Z.even q);
    [| replace ((q + 1) * B) with (q * B + B) by ring]; lia.
Qed.

(** The conversion to [float64] moves an [int64] by at most 512. *)
Lemma float64_error (x : Z) :
  is_int64 x -> Z.abs (float64_of_int64 x - x) <= 512.
Proof.
  unfold is_int64, min_int64, max_int64. intros Hr.
  destruct (Z.eq_dec x (- 2 ^ 63)) as [-> | Hne];
    [vm_compute; discriminate |].
  unfold float64_of_int64.
  destruct (Z.ltb_spec (Z.abs x) (2 ^ 53)) as [| Hge]; [lia |].
  assert (HL1 : 53 <= Z.log2 (Z.abs x)).
  { change 53 with (Z.log2 (2 ^ 53)). now apply Z.log2_le_mono. }
  assert (HL2 : Z.log2 (Z.abs x) < 63) by (apply Z.log2_lt_pow2; lia).
  pose proof (round_to_even_error (Z.abs x) (Z.log2 (Z.abs x) - 52)
                ltac:(lia)) as Herr.
  assert (Hp : 2 ^ (Z.log2 (Z.abs x) - 52 - 1) <= 2 ^ 9)
    by (apply Z.pow_le_mono_r; lia).
  change (2 ^ 9) with 512 in Hp.
  destruct (Z.lt_trichotomy x 0) as [Hneg | [-> | Hpos]];
    [rewrite Z.sgn_neg by lia | lia | rewrite Z.sgn_pos by lia]; lia.
Qed.

(** X5: the update is never far from the exact minimum. When doubling the
    current backoff does not leave the [int64] range and [MaxBackoff] is at
    most [MaxInt64 - 512], the result differs from the exact minimum of
    twice the current backoff and [MaxBackoff] by at most 512 nanoseconds. *)
Theorem next_within_512ns_of_min (current max : Duration) :
  is_int64 (2 * current) -> is_int64 max -> max <= max_int64 - 512 ->
  Z.abs (next current max - Z.min (2 * current) max) <= 512.
Proof.
  intros Hc Hm Hm'. unfold next, math_Min.
  rewrite double_exact by exact Hc.
  pose proof (float64_error _ Hc). pose proof (float64_error _ Hm).
  pose proof (float64_lower _ Hc). pose proof (float64_lower _ Hm).
  rewrite Duration_of_float64_id; unfold is_int64 in *; lia.
Qed.

(** X6: whatever the current backoff is, also one whose doubling wraps
    around, the update never yields more than a [MaxBackoff] within [2^53]
    nanoseconds of zero; so from the second pass on no wait exceeds
    [MaxBackoff], whatever [MinBackoff] is. *)
Theorem next_never_exceeds_ceiling (cfg : Config) (current : Duration) :
  - 2 ^ 53 <= MaxBackoff cfg <= 2 ^ 53 ->
  next current (MaxBackoff cfg) <= MaxBackoff cfg /\
  forall i, wait cfg (S i) <= MaxBackoff cfg.
Proof.
  intros Hm.
  assert (Hnext : forall b, next b (MaxBackoff cfg) <= MaxBackoff cfg).
  { intros b. unfold next, math_Min.
    pose proof (float64_lower _ (wrap64_is_int64 (b * 2))).
    fold (double b) in *.
    rewrite (float64_exact (MaxBackoff cfg)) by lia.
    rewrite Duration_of_float64_id;
      unfold is_int64, min_int64, max_int64 in *; lia. }
  split; [apply Hnext |]. intros i. apply Hnext.
Qed.

(** X9: doubling a backoff of [2^62] nanoseconds or more wraps around, and
    the update then yields a negative backoff, whatever [MaxBackoff] is. *)
Theorem next_overflow_goes_negative (current max : Duration) :
  2 ^ 62 <= current <= max_int64 -> is_int64 max ->
  double current = 2 * current - 2 ^ 64 /\
  min_int64 <= next current max < 0.
Proof.
  unfold max_int64. intros Hc Hm.
  assert (Hd : double current = 2 * current - 2 ^ 64).
  { unfold double, wrap64.
    replace (current * 2 + 2 ^ 63)
      with (current * 2 - 2 ^ 63 + 1 * 2 ^ 64) by lia.
    rewrite Z.mod_add, Z.mod_small; lia. }
  split; [exact Hd |]. unfold next, math_Min.
  pose proof (float64_negative (double current) (wrap64_is_int64 _)
                ltac:(rewrite Hd; lia)).
  pose proof (float64_lower _ Hm).
  rewrite Duration_of_float64_id;
    unfold is_int64, min_int64, max_int64 in *; lia.
Qed.

(** X7: a resolved configuration has no zero backoff bound and no [nil]
    logger, and resolving it again changes nothing. *)
Theorem resolve_idempotent (cfg : Config) :
  MinBackoff (resolve cfg) <> 0 /\ MaxBackoff (resolve cfg) <> 0 /\
  Logger (resolve cfg) <> None /\
  resolve (resolve cfg) = resolve cfg.
Proof.
  rewrite (resolve_fields (resolve cfg)), resolve_fields.
  cbn [MinBackoff MaxBackoff Logger]. unfold logger_of. cbn [Logger].
  destruct (Z.eqb_spec (MinBackoff cfg) 0) as [E1 | E1],
           (Z.eqb_spec (MaxBackoff cfg) 0) as [E2 | E2];
    try (apply Z.eqb_neq in E1; rewrite E1);
    try (apply Z.eqb_neq in E2; rewrite E2);
    repeat split; try discriminate; try (apply Z.eqb_neq; assumption).
Qed.

(** ** Further properties of the runs *)

(** X1: started on a signal that has already fired, the goroutine issues the
    stop notice at its first pass and ends there, by returning when that
    output call returns; the worker is never entered and nothing else is
    logged. *)
Theorem cancelled_before_start_never_invokes (cfg : Config) (env : Env)
    (t0 c : Z) (fuel : nat) :
  cancel_at env = Some c -> c <= t0 ->
  let r := Start (S fuel) env t0 cfg in
  terminated r = true /\
  (log_returns (resolve cfg) = true -> stopped r = true) /\
  runs (state_of r) = O /\
  invoke_times (state_of r) = [] /\ sleeps (state_of r) = [] /\
  trace (state_of r) = [EvLog t0 (logger_of (resolve cfg)) MsgStopped].
Proof.
  intros Hc Hle r. unfold r, Start. cbn [loop]. rewrite cycle_unfold.
  unfold ctx_done, log_returns. rewrite Hc. cbn [spawn clock].
  destruct (Z.leb_spec c t0); [| lia].
  destruct (output_panics (logger_of (resolve cfg)));
    repeat split; discriminate.
Qed.

(** X3: every restart notice announces the very duration then slept. In
    every run the slept durations are the announced delays, in order, up to
    one last notice whose output call panicked; and with a logger whose
    calls return they are the same list, one entry per invocation, less the
    invocation a run is stuck inside or exited from. *)
Theorem restart_notice_announces_the_sleep (cfg : Config) (env : Env)
    (t0 : Z) (fuel : nat) :
  let r := loop fuel cfg env (spawn cfg t0) in
  (exists rest,
      restart_notices (state_of r) = sleeps (state_of r) ++ rest /\
      (List.length rest <= 1)%nat /\
      (log_returns cfg = true -> rest = [])) /\
  (log_returns cfg = true ->
   runs (state_of r) =
   (List.length (sleeps (state_of r))
    + if stuck r || exited r then 1 else 0)%nat).
Proof.
  set (I := fun s : Loop =>
              restart_notices s = sleeps s /\
              runs s = List.length (sleeps s)).
  apply (loop_ind_cycle I
           (fun r =>
              (exists rest,
                  restart_notices (state_of r) = sleeps (state_of r) ++ rest /\
                  (List.length rest <= 1)%nat /\
                  (log_returns cfg = true -> rest = [])) /\
              (log_returns cfg = true ->
               runs (state_of r) =
               (List.length (sleeps (state_of r))
                + if stuck r || exited r then 1 else 0)%nat))
           cfg env).
  - intros s [H1 H2]. cbn [state_of stuck exited orb]. split.
    + exists []. rewrite app_nil_r. repeat split; [exact H1 | cbn; lia].
    + intros _. lia.
  - intros s [H1 H2]. rewrite cycle_unfold. unfold log_returns.
    destruct (ctx_done env (clock s));
      [| destruct (worker env (runs s) (clock s))];
      destruct (output_panics (logger_of cfg));
      cbn [stuck exited orb]; revert H1 H2; run_simpl; intros H1 H2;
      (split; [| intros Hlog; try discriminate;
                 rewrite ?length_app; cbn [List.length]; lia]);
      rewrite ?H1;
      first [ exists []; rewrite app_nil_r;
              repeat split; [cbn; lia]
            | eexists [_]; repeat split; [cbn; lia | discriminate] ].
  - intros s s' [H1 H2] E.
    destruct (cycle_Next_effect _ _ _ _ E)
      as (_ & _ & _ & Hr & _ & _ & _ & Hs & Hn & _).
    unfold I. rewrite Hr, Hs, Hn, H1, length_app. cbn [List.length].
    split; [reflexivity | lia].
  - split; reflexivity.
Qed.

(** X8: crash notices come from panics only: no run holds more crash
    notices than it made invocations, and a run of a worker that never
    panics holds none. *)
Theorem crash_notices_only_from_panics (cfg : Config) (env : Env)
    (t0 : Z) (fuel : nat) :
  let r := loop fuel cfg env (spawn cfg t0) in
  (List.length (crash_notices (state_of r)) <= runs (state_of r))%nat /\
  ((forall k t d v, worker env k t <> Panic d v) ->
   crash_notices (state_of r) = []).
Proof.
  split.
  - apply (loop_ind_cycle
             (fun s => (List.length (crash_notices s) <= runs s)%nat)
             (fun r => (List.length (crash_notices (state_of r))
                        <= runs (state_of r))%nat) cfg env).
    + intros s H. exact H.
    + intros s H. rewrite cycle_unfold.
      destruct (ctx_done env (clock s));
        [| destruct (worker env (runs s) (clock s))];
        destruct (output_panics (logger_of cfg));
        revert H; run_simpl; rewrite ?length_app; cbn [List.length]; lia.
    + intros s s' H E. rewrite cycle_unfold in E.
      destruct (ctx_done env (clock s));
        [| destruct (worker env (runs s) (clock s))];
        destruct (output_panics (logger_of cfg)); try discriminate;
        inversion E; subst;
        revert H; run_simpl; rewrite ?length_app; cbn [List.length]; lia.
    + cbn. lia.
  - intros Hw.
    apply (loop_ind_cycle
             (fun s => crash_notices s = [])
             (fun r => crash_notices (state_of r) = []) cfg env).
    + intros s H. exact H.
    + intros s H. rewrite cycle_unfold.
      destruct (ctx_done env (clock s));
        [| destruct (worker env (runs s) (clock s)) eqn:E];
        try (exfalso; exact (Hw _ _ _ _ E));
        destruct (output_panics (logger_of cfg));
        revert H; run_simpl; intros H; now rewrite ?H.
    + intros s s' H E. rewrite cycle_unfold in E.
      destruct (ctx_done env (clock s));
        [| destruct (worker env (runs s) (clock s)) eqn:Ew];
        try (exfalso; exact (Hw _ _ _ _ Ew));
        destruct (output_panics (logger_of cfg)); try discriminate;
        inversion E; subst; revert H; run_simpl; intros H; now rewrite ?H.
    + reflexivity.
Qed.

(** X10: the stop notice is issued once, as the last thing the goroutine
    does: no run holds more than one stop notice; a run that has stopped
    holds one; a run that holds one has ended, with that notice as the final
    event of its trace; and with a logger whose calls return a run holds a
    stop notice exactly when it has stopped. *)
Theorem stop_notice_once_and_last (cfg : Config) (env : Env)
    (t0 : Z) (fuel : nat) :
  let r := loop fuel cfg env (spawn cfg t0) in
  (stop_notices (state_of r) <= 1)%nat /\
  (stopped r = true -> stop_notices (state_of r) = 1%nat) /\
  (stop_notices (state_of r) = 1%nat ->
   terminated r = true /\
   exists tr t, trace (state_of r) = tr ++ [EvLog t (logger_of cfg) MsgStopped]) /\
  (log_returns cfg = true ->
   stop_notices (state_of r) = (if stopped r then 1 else 0)%nat).
Proof.
  apply (loop_ind_cycle
           (fun s => stop_notices s = O)
           (fun r =>
              (stop_notices (state_of r) <= 1)%nat /\
              (stopped r = true -> stop_notices (state_of r) = 1%nat) /\
              (stop_notices (state_of r) = 1%nat ->
               terminated r = true /\
               exists tr t, trace (state_of r)
                            = tr ++ [EvLog t (logger_of cfg) MsgStopped]) /\
              (log_returns cfg = true ->
               stop_notices (state_of r) = (if stopped r then 1 else 0)%nat))
           cfg env).
  - intros s H. cbn [state_of stopped]. rewrite H.
    repeat split; try discriminate; lia.
  - intros s H. rewrite cycle_unfold. unfold log_returns.
    destruct (ctx_done env (clock s));
      [| destruct (worker env (runs s) (clock s))];
      destruct (output_panics (logger_of cfg)); cbn [stopped terminated];
      assert (Hn : stop_notices s = O) by exact H;
      revert H; run_simpl; rewrite ?length_app; cbn [List.length];
      intros H; rewrite ?H; repeat split; try discriminate; try lia;
      try (exists (trace s), (clock s); reflexivity).
  - intros s s' H E.
    destruct (cycle_Next_effect _ _ _ _ E)
      as (_ & _ & _ & _ & _ & _ & _ & _ & _ & ->). exact H.
  - reflexivity.
Qed.

(** Within the bounds, with a logger whose calls return, every pass of a
    worker that comes back takes at least [MinBackoff]. *)
Lemma loop_progress (cfg : Config) (env : Env) :
  0 < MinBackoff cfg <= MaxBackoff cfg -> MaxBackoff cfg <= 2 ^ 53 ->
  log_returns cfg = true ->
  (forall k t, comes_back (worker env k t) = true) ->
  forall (n : nat) (s : Loop),
    in_bounds cfg s ->
    (exists s', loop n cfg env s = Stopped s') \/
    (exists s', loop n cfg env s = Next s' /\ in_bounds cfg s' /\
                clock s + Z.of_nat n * MinBackoff cfg <= clock s').
Proof.
  intros Hc Hm Hlog Hw. unfold in_bounds.
  pose proof (log_returns_None _ Hlog) as Hout.
  induction n as [| n IH]; intros s Hs.
  - right. exists s. repeat split; cbn [loop]; lia.
  - cbn [loop]. rewrite cycle_unfold, Hout.
    destruct (ctx_done env (clock s)); [left; eauto |].
    assert (Hb : MinBackoff cfg <= next (backoff s) (MaxBackoff cfg)
                 <= MaxBackoff cfg) by (rewrite next_is_min by lia; lia).
    specialize (Hw (runs s) (clock s)).
    destruct (worker env (runs s) (clock s)) as [d | d v | d |];
      try discriminate.
    + destruct (IH (after_wait cfg (tick (Z.of_N d) (enter s))) Hb)
        as [Hl | (s' & Hl & Hb' & Hclk)]; [now left | right].
      exists s'. repeat split; try tauto.
      revert Hclk. run_simpl. intros Hclk. nia.
    + destruct (IH (after_wait cfg (logf cfg (MsgCrashed (payload v))
                                         (tick (Z.of_N d) (enter s)))) Hb)
        as [Hl | (s' & Hl & Hb' & Hclk)]; [now left | right].
      exists s'. repeat split; try tauto.
      revert Hclk. run_simpl. intros Hclk. nia.
Qed.

(** X4: within the bounds a fired signal stops the goroutine. With
    [0 < MinBackoff <= MaxBackoff <= 2^53], a logger whose calls return and
    a worker whose every call returns or panics, a signal firing at [c]
    stops a goroutine started at [t0] within [c - t0 + 1] passes (each takes
    a nanosecond at least), and the run stays stopped whatever fuel is
    added. *)
Theorem cancellation_stops_the_goroutine (cfg : Config) (env : Env)
    (t0 c : Z) :
  0 < MinBackoff cfg <= MaxBackoff cfg -> MaxBackoff cfg <= 2 ^ 53 ->
  log_returns cfg = true ->
  cancel_at env = Some c ->
  (forall k t, comes_back (worker env k t) = true) ->
  exists fuel s',
    (fuel <= S (Z.to_nat (c - t0)))%nat /\
    c <= clock s' /\
    forall more, loop (fuel + more) cfg env (spawn cfg t0) = Stopped s'.
Proof.
  intros Hc Hm Hlog Hcancel Hw.
  pose proof (log_returns_None _ Hlog) as Hout.
  assert (Hdone : forall n s s',
             loop n cfg env s = Stopped s' -> c <= clock s').
  { intros n s s' H.
    destruct (loop_Stopped cfg env n s s' H) as (k & s0 & _ & _ & Hd & ->).
    unfold ctx_done in Hd. rewrite Hcancel in Hd. apply Z.leb_le in Hd.
    exact Hd. }
  set (n := Z.to_nat (c - t0)).
  destruct (loop_progress cfg env Hc Hm Hlog Hw n (spawn cfg t0))
    as [(s' & Hl) | (s' & Hl & Hb & Hclk)].
  - unfold in_bounds. cbn. lia.
  - exists n, s'. repeat split; [lia | now apply (Hdone _ _ _ Hl) |].
    intros more. now rewrite loop_add, Hl.
  - assert (Hge : c <= clock s').
    { cbn [spawn clock] in Hclk. unfold n in Hclk. nia. }
    assert (Hstop : loop 1 cfg env s' = Stopped (logf cfg MsgStopped s')).
    { cbn [loop]. rewrite cycle_unfold, Hout. unfold ctx_done.
      rewrite Hcancel.
      destruct (Z.leb_spec c (clock s')); [reflexivity | lia]. }
    exists (n + 1)%nat, (logf cfg MsgStopped s').
    repeat split; [lia | exact Hge |].
    intros more. rewrite loop_add, loop_add, Hl, Hstop. reflexivity.
Qed.

Lemma gaps_snoc (T : list Z) (x : Z) (w : nat -> Z) :
  (forall i, (S i < List.length T)%nat -> nth i T 0 + w i <= nth (S i) T 0) ->
  (forall i, List.length T = S i -> nth i T 0 + w i <= x) ->
  forall i, (S i < List.length (T ++ [x]))%nat ->
            nth i (T ++ [x]) 0 + w i <= nth (S i) (T ++ [x]) 0.
Proof.
  intros Hin Hlast i Hi. rewrite length_app in Hi. cbn [List.length] in Hi.
  rewrite (app_nth1 T [x] 0) by lia.
  destruct (Nat.eq_dec (S i) (List.length T)) as [E | E].
  - rewrite app_nth2 by lia. rewrite E, Nat.sub_diag. cbn [nth].
    apply Hlast. now symmetry.
  - rewrite app_nth1 by lia. apply Hin. lia.
Qed.

Lemma cycle_invoke_times (cfg : Config) (env : Env) (s : Loop) :
  (invoke_times (state_of (cycle cfg env s)) = invoke_times s /\
   runs (state_of (cycle cfg env s)) = runs s) \/
  (invoke_times (state_of (cycle cfg env s)) = invoke_times s ++ [clock s] /\
   runs (state_of (cycle cfg env s)) = S (runs s)).
Proof.
  rewrite cycle_unfold.
  destruct (ctx_done env (clock s));
    [left | right; destruct (worker env (runs s) (clock s))];
    destruct (output_panics (logger_of cfg));
    run_simpl; split; reflexivity.
Qed.

(** X11: restarts are spaced by the backoff. In every run the worker is
    entered once per invocation, and between one entry and the next at
    least the wait of that pass elapses (none when the wait is negative). *)
Theorem restarts_spaced_by_backoff (cfg : Config) (env : Env)
    (t0 : Z) (fuel : nat) :
  let s := state_of (loop fuel cfg env (spawn cfg t0)) in
  List.length (invoke_times s) = runs s /\
  forall i, (S i < runs s)%nat ->
            nth i (invoke_times s) 0 + Z.max 0 (wait cfg i)
            <= nth (S i) (invoke_times s) 0.
Proof.
  set (w := fun i => Z.max 0 (wait cfg i)).
  set (I := fun s : Loop =>
              List.length (invoke_times s) = runs s /\
              backoff s = wait cfg (runs s) /\
              (forall i, (S i < List.length (invoke_times s))%nat ->
                         nth i (invoke_times s) 0 + w i
                         <= nth (S i) (invoke_times s) 0) /\
              (forall i, List.length (invoke_times s) = S i ->
                         nth i (invoke_times s) 0 + w i <= clock s)).
  set (J := fun r : Cycle =>
              List.length (invoke_times (state_of r)) = runs (state_of r) /\
              forall i, (S i < List.length (invoke_times (state_of r)))%nat ->
                        nth i (invoke_times (state_of r)) 0 + w i
                        <= nth (S i) (invoke_times (state_of r)) 0).
  assert (HJ : J (loop fuel cfg env (spawn cfg t0))).
  { apply (loop_ind_cycle I J cfg env).
    - intros s (Hlen & _ & Hgap & _). split; assumption.
    - intros s (Hlen & Hb & Hgap & Hlast). unfold J.
      destruct (cycle_invoke_times cfg env s) as [[-> ->] | [-> ->]].
      + split; assumption.
      + split; [rewrite length_app; cbn [List.length]; lia |].
        apply gaps_snoc; assumption.
    - intros s s' (Hlen & Hb & Hgap & Hlast) E. unfold I.
      destruct (cycle_Next_effect cfg env s s' E)
        as (_ & _ & _ & -> & -> & -> & -> & _).
      repeat split.
      + rewrite length_app. cbn [List.length]. lia.
      + unfold wait in *. cbn [backoff_after]. now rewrite <- Hb.
      + apply gaps_snoc; assumption.
      + intros i Hi. rewrite length_app in Hi. cbn [List.length] in Hi.
        rewrite app_nth2 by lia.
        replace (i - List.length (invoke_times s))%nat with O by lia.
        cbn [nth]. unfold w. replace i with (runs s) by lia.
        rewrite <- Hb.
        pose proof (N2Z.is_nonneg 0).
        assert (0 <= elapsed_of (worker env (runs s) (clock s)))
          by (destruct (worker env (runs s) (clock s)); cbn; lia).
        lia.
    - unfold I. cbn. repeat split; intros; lia. }
  destruct HJ as [Hlen Hgap]. split; [exact Hlen |].
  intros i Hi. apply Hgap. cbv zeta in Hi. lia.
Qed.

End Supervisor.

(** ** The theorems at work, and where the spec's sentences fail *)

(** The test scenario, cancelled after 700ms: the waits double from 20ms and
    are clamped at 200ms, and the goroutine stops at the head of a pass. *)
Example test_scenario_run :
  let env := mkEnv (Some (700 * Millisecond)) always_panics in
  let c := Start cvt_amd64 10 env 0 test_config in
  terminated c = true /\ died c = false /\ runs (state_of c) = 6%nat /\
  sleeps (state_of c) =
  [20000000; 40000000; 80000000; 160000000; 200000000; 200000000] /\
  crash_notices (state_of c) = repeat (value "boom") 6.
Proof. vm_compute. repeat split. Qed.

Lemma worker_panic_contained_witness :
  let env := mkEnv None always_panics in
  let s := spawn test_config 0 in
  log_returns test_config = true /\
  worker env (runs s) (clock s) = Panic 1000 (value "boom") /\
  ctx_done env (clock s) = false /\
  (exists s1,
      call_worker env s = Finished (Panicking (value "boom")) s1 /\
      invoke test_config env s =
      Finished Normal (logf test_config (MsgCrashed (value "boom")) s1) /\
      cycle cvt_amd64 test_config env s =
      Next (after_wait cvt_amd64 test_config
              (logf test_config (MsgCrashed (value "boom")) s1))).
Proof.
  cbv zeta. split; [reflexivity |]. split; [reflexivity |].
  split; [reflexivity |].
  exact (proj1 (worker_panic_contained cvt_amd64 test_config
                  (mkEnv None always_panics) (spawn test_config 0)
                  1000%N (value "boom") eq_refl eq_refl eq_refl)).
Defined.

(** C6 fails on the code: a worker that calls [runtime.Goexit] ends the
    goroutine at its first invocation, with the signal unfired and no stop
    notice, on a logger whose calls return. *)
Lemma goexit_ends_goroutine_without_signal :
  let env := mkEnv None always_goexits in
  let r := Start cvt_amd64 3 env 0 test_config in
  cancel_at env = None /\ log_returns test_config = true /\
  r = Exited (tick 0 (enter (spawn test_config 0))) /\
  terminated r = true /\ stopped r = false /\
  runs (state_of r) = 1%nat /\ messages (state_of r) = [].
Proof. cbv zeta. repeat split. Qed.

Lemma stops_only_on_cancellation_witness :
  let env := mkEnv None always_panics in
  log_returns test_config = true /\
  (forall k t d, worker env k t <> Goexit d) /\
  cancel_at env = None /\
  (forall k t, comes_back (worker env k t) = true) /\
  died (loop cvt_amd64 5 test_config env (spawn test_config 0)) = false /\
  exited (loop cvt_amd64 5 test_config env (spawn test_config 0)) = false /\
  terminated (loop cvt_amd64 5 test_config env (spawn test_config 0)) = false /\
  exists s', loop cvt_amd64 5 test_config env (spawn test_config 0) = Next s' /\
             runs s' = (runs (spawn test_config 0) + 5)%nat.
Proof.
  cbv zeta.
  assert (H1 : forall k t d,
             worker (mkEnv None always_panics) k t <> Goexit d)
    by (intros k t d H; discriminate H).
  assert (H2 : forall k t,
             comes_back (worker (mkEnv None always_panics) k t) = true)
    by (intros k t; reflexivity).
  split; [reflexivity |]. split; [exact H1 |]. split; [reflexivity |].
  split; [exact H2 |].
  pose proof (stops_only_on_cancellation cvt_amd64 test_config
                (mkEnv None always_panics) (spawn test_config 0) 5)
    as (_ & Ha & Hb & _).
  destruct (Ha eq_refl H1) as (Hd & He & Ht).
  exact (conj Hd (conj He (conj (Ht eq_refl) (Hb eq_refl eq_refl H2)))).
Defined.

(** C2 fails on the code: with a ceiling of [2^53 + 1] nanoseconds the
    update rounds the ceiling down to [2^53], and doubling a backoff of
    [2^62] wraps to the most negative duration. *)
Lemma next_not_exact_min :
  next cvt_amd64 (2 ^ 53) (2 ^ 53 + 1) = 2 ^ 53 /\
  Z.min (2 * 2 ^ 53) (2 ^ 53 + 1) = 2 ^ 53 + 1 /\
  next cvt_amd64 (2 ^ 62) max_int64 = min_int64 /\
  Z.min (2 * 2 ^ 62) max_int64 = max_int64.
Proof. vm_compute. repeat split. Qed.

Lemma next_exact_within_float_precision_witness :
  (- 2 ^ 53 <= 20 * Millisecond <= 2 ^ 53) /\
  (- 2 ^ 53 <= 50 * Millisecond <= 2 ^ 53) /\
  next cvt_amd64 (20 * Millisecond) (50 * Millisecond) =
  Z.min (2 * (20 * Millisecond)) (50 * Millisecond).
Proof.
  assert (H1 : - 2 ^ 53 <= 20 * Millisecond <= 2 ^ 53)
    by (split; intros H; discriminate H).
  assert (H2 : - 2 ^ 53 <= 50 * Millisecond <= 2 ^ 53)
    by (split; intros H; discriminate H).
  split; [exact H1 |]. split; [exact H2 |].
  exact (proj2 (next_exact_within_float_precision cvt_amd64 _ _ H1 H2)).
Defined.

(** C3 fails on the code: with both bounds at [2^53 + 1] nanoseconds the
    first update leaves the backoff at [2^53], below [MinBackoff]. *)
Lemma backoff_leaves_bounds :
  let cfg := mkConfig (2 ^ 53 + 1) (2 ^ 53 + 1) None in
  let env := mkEnv None always_panics in
  0 < MinBackoff cfg <= MaxBackoff cfg /\
  in_bounds cfg (spawn cfg 0) /\
  backoff (state_of (loop cvt_amd64 1 cfg env (spawn cfg 0))) = 2 ^ 53 /\
  ~ in_bounds cfg (state_of (loop cvt_amd64 1 cfg env (spawn cfg 0))).
Proof.
  cbv zeta. repeat split; try (intros H; discriminate H).
  intros [H _]. now apply H.
Qed.

Lemma backoff_stays_in_bounds_witness :
  let env := mkEnv None always_panics in
  (0 < MinBackoff test_config <= MaxBackoff test_config) /\
  MaxBackoff test_config <= 2 ^ 53 /\
  in_bounds test_config
    (state_of (loop cvt_amd64 5 test_config env (spawn test_config 0))).
Proof.
  cbv zeta.
  assert (H1 : 0 < MinBackoff test_config <= MaxBackoff test_config)
    by (split; [reflexivity | intros H; discriminate H]).
  assert (H2 : MaxBackoff test_config <= 2 ^ 53)
    by (intros H; discriminate H).
  split; [exact H1 |]. split; [exact H2 |].
  exact (proj2 (proj2 (backoff_stays_in_bounds cvt_amd64 test_config
                         (mkEnv None always_panics) 0 5 H1 H2))).
Defined.

(** C4 fails on the code: with [MinBackoff] 50ms and [MaxBackoff] 10ms the
    second wait is [MaxBackoff] itself, not above it. *)
Lemma inverted_bounds_second_wait :
  let cfg := mkConfig (50 * Millisecond) (10 * Millisecond) None in
  0 < MaxBackoff cfg < MinBackoff cfg /\
  wait cvt_amd64 cfg 0 = 50000000 /\
  wait cvt_amd64 cfg 1 = MaxBackoff cfg /\
  ~ MaxBackoff cfg < wait cvt_amd64 cfg 1.
Proof.
  cbv zeta. repeat split. intros H; discriminate H.
Qed.

Lemma inverted_bounds_clamp_after_first_wait_witness :
  let cfg := mkConfig (50 * Millisecond) (10 * Millisecond) None in
  0 < MaxBackoff cfg < MinBackoff cfg /\
  MaxBackoff cfg <= 2 ^ 53 /\
  2 * MinBackoff cfg <= max_int64 /\
  wait cvt_amd64 cfg 0 = MinBackoff cfg /\
  MaxBackoff cfg < wait cvt_amd64 cfg 0 /\
  forall i, wait cvt_amd64 cfg (S i) = MaxBackoff cfg.
Proof.
  cbv zeta.
  assert (H1 : 0 < 10 * Millisecond < 50 * Millisecond)
    by (split; reflexivity).
  assert (H2 : 10 * Millisecond <= 2 ^ 53) by (intros H; discriminate H).
  assert (H3 : 2 * (50 * Millisecond) <= max_int64)
    by (intros H; discriminate H).
  split; [exact H1 |]. split; [exact H2 |]. split; [exact H3 |].
  exact (inverted_bounds_clamp_after_first_wait cvt_amd64
           (mkConfig (50 * Millisecond) (10 * Millisecond) None) H1 H2 H3).
Defined.

(** C5 fails on the code: the waits decrease when [MinBackoff] exceeds
    [MaxBackoff] (50ms, then 10ms) and when [MinBackoff] is negative (-1ns,
    then -2ns); and with both bounds at [2^53 + 1] nanoseconds the backoff
    starts at [MaxBackoff] and drops to [2^53], so [MaxBackoff] is not a
    fixed point of the update. *)
Lemma waits_can_decrease :
  let inverted := mkConfig (50 * Millisecond) (10 * Millisecond) None in
  let negative := mkConfig (-1) (30 * Second) None in
  let large := mkConfig (2 ^ 53 + 1) (2 ^ 53 + 1) None in
  (wait cvt_amd64 inverted 0 = 50000000 /\ wait cvt_amd64 inverted 1 = 10000000) /\
  (resolve negative = mkConfig (-1) (30 * Second) (Some log_Default) /\
   wait cvt_amd64 negative 0 = -1 /\ wait cvt_amd64 negative 1 = -2) /\
  (0 < MinBackoff large <= MaxBackoff large /\
   wait cvt_amd64 large 0 = MaxBackoff large /\
   wait cvt_amd64 large 1 = 2 ^ 53 /\
   wait cvt_amd64 large 1 < wait cvt_amd64 large 0 /\
   next cvt_amd64 (MaxBackoff large) (MaxBackoff large) = MaxBackoff large - 1).
Proof.
  cbv zeta. repeat split. intros H; discriminate H.
Qed.

Lemma waits_nondecreasing_and_clamped_witness :
  (0 < MinBackoff test_config <= MaxBackoff test_config) /\
  MaxBackoff test_config <= 2 ^ 53 /\
  (forall i, wait cvt_amd64 test_config i <= wait cvt_amd64 test_config (S i)) /\
  (forall i, wait cvt_amd64 test_config i <= MaxBackoff test_config).
Proof.
  assert (H1 : 0 < MinBackoff test_config <= MaxBackoff test_config)
    by (split; [reflexivity | intros H; discriminate H]).
  assert (H2 : MaxBackoff test_config <= 2 ^ 53)
    by (intros H; discriminate H).
  split; [exact H1 |]. split; [exact H2 |].
  pose proof (waits_nondecreasing_and_clamped cvt_amd64 test_config H1 H2)
    as (Ha & Hb & _).
  exact (conj Ha Hb).
Defined.

Lemma wait_ignores_cancellation_witness :
  let env := mkEnv (Some (5 * Millisecond)) always_panics in
  let s := spawn test_config 0 in
  let s1 := call_state (invoke test_config env s) in
  let s2 := after_wait cvt_amd64 test_config s1 in
  log_returns test_config = true /\
  cancel_at env = Some (5 * Millisecond) /\
  invoke test_config env s = Finished Normal s1 /\
  clock s1 < 5 * Millisecond <= clock s1 + backoff s1 /\
  cycle cvt_amd64 test_config env s = Next s2 /\
  clock s2 = 20001000 /\
  cycle cvt_amd64 test_config env s2 = Stopped (logf test_config MsgStopped s2) /\
  runs (logf test_config MsgStopped s2) = 1%nat.
Proof.
  cbv zeta.
  assert (H1 : clock (call_state (invoke test_config
                 (mkEnv (Some (5 * Millisecond)) always_panics)
                 (spawn test_config 0))) < 5 * Millisecond
               <= clock (call_state (invoke test_config
                    (mkEnv (Some (5 * Millisecond)) always_panics)
                    (spawn test_config 0)))
                  + backoff (call_state (invoke test_config
                      (mkEnv (Some (5 * Millisecond)) always_panics)
                      (spawn test_config 0))))
    by (split; [reflexivity | intros H; discriminate H]).
  split; [reflexivity |].
  split; [reflexivity |]. split; [reflexivity |]. split; [exact H1 |].
  pose proof (wait_ignores_cancellation cvt_amd64 test_config
                (mkEnv (Some (5 * Millisecond)) always_panics)
                (spawn test_config 0) _ (5 * Millisecond)
                eq_refl eq_refl eq_refl H1) as (Ha & _ & Hb & Hc & Hd & _).
  exact (conj Ha (conj Hb (conj Hc Hd))).
Defined.

Lemma negative_backoff_not_defaulted_witness :
  let cfg := mkConfig (-1 * Second) (-5 * Second) None in
  let env := mkEnv None always_panics in
  is_int64 (MaxBackoff cfg) /\
  cancel_at env = None /\ log_returns (resolve cfg) = true /\
  (forall k t, comes_back (worker env k t) = true) /\
  exists s',
    Start cvt_amd64 3 env 0 cfg = Next s' /\
    List.length (sleeps s') = 3%nat /\
    hd 0 (sleeps s') = -1 * Second /\
    Forall (fun d => d < 0) (tl (sleeps s')) /\ backoff s' < 0.
Proof.
  cbv zeta.
  assert (H1 : is_int64 (-5 * Second))
    by (split; intros H; discriminate H).
  assert (H2 : forall k t,
             comes_back (worker (mkEnv None always_panics) k t) = true)
    by (intros k t; reflexivity).
  split; [exact H1 |]. split; [reflexivity |]. split; [reflexivity |].
  split; [exact H2 |].
  destruct (negative_backoff_not_defaulted cvt_amd64
              (mkConfig (-1 * Second) (-5 * Second) None)
              (mkEnv None always_panics) 0 2 H1 eq_refl eq_refl H2)
    as (s' & Hs & Hlen & Hmin & Hmax & _).
  destruct (Hmin eq_refl) as [_ Hhd]. destruct (Hmax eq_refl) as (_ & Htl & Hb).
  exists s'. exact (conj Hs (conj Hlen (conj Hhd (conj Htl Hb)))).
Defined.

(** ** The further properties at work *)

Lemma cancelled_before_start_never_invokes_witness :
  let env := mkEnv (Some 0) always_panics in
  cancel_at env = Some 0 /\ 0 <= 5 /\
  (let r := Start cvt_amd64 4 env 5 test_config in
   terminated r = true /\
   (log_returns (resolve test_config) = true -> stopped r = true) /\
   runs (state_of r) = O /\
   invoke_times (state_of r) = [] /\ sleeps (state_of r) = [] /\
   trace (state_of r) = [EvLog 5 (logger_of (resolve test_config)) MsgStopped]).
Proof.
  cbv zeta.
  assert (H : 0 <= 5) by (intros H; discriminate H).
  split; [reflexivity |]. split; [exact H |].
  exact (cancelled_before_start_never_invokes cvt_amd64 test_config
           (mkEnv (Some 0) always_panics) 5 0 3 eq_refl H).
Defined.

Lemma cancellation_stops_the_goroutine_witness :
  let env := mkEnv (Some (700 * Millisecond)) always_panics in
  (0 < MinBackoff test_config <= MaxBackoff test_config) /\
  MaxBackoff test_config <= 2 ^ 53 /\
  log_returns test_config = true /\
  cancel_at env = Some (700 * Millisecond) /\
  (forall k t, comes_back (worker env k t) = true) /\
  exists fuel s',
    (fuel <= S (Z.to_nat (700 * Millisecond - 0)))%nat /\
    700 * Millisecond <= clock s' /\
    forall more,
      loop cvt_amd64 (fuel + more) test_config env (spawn test_config 0)
      = Stopped s'.
Proof.
  cbv zeta.
  assert (H1 : 0 < MinBackoff test_config <= MaxBackoff test_config)
    by (split; [reflexivity | intros H; discriminate H]).
  assert (H2 : MaxBackoff test_config <= 2 ^ 53)
    by (intros H; discriminate H).
  assert (H3 : forall k t,
             comes_back
               (worker (mkEnv (Some (700 * Millisecond)) always_panics) k t)
             = true)
    by (intros k t; reflexivity).
  split; [exact H1 |]. split; [exact H2 |]. split; [reflexivity |].
  split; [reflexivity |]. split; [exact H3 |].
  exact (cancellation_stops_the_goroutine cvt_amd64 test_config
           (mkEnv (Some (700 * Millisecond)) always_panics)
           0 (700 * Millisecond) H1 H2 eq_refl eq_refl H3).
Defined.

Lemma next_within_512ns_of_min_witness :
  is_int64 (2 * (2 ^ 53 + 1)) /\ is_int64 (2 ^ 62) /\
  2 ^ 62 <= max_int64 - 512 /\
  Z.abs (next cvt_amd64 (2 ^ 53 + 1) (2 ^ 62)
         - Z.min (2 * (2 ^ 53 + 1)) (2 ^ 62)) <= 512.
Proof.
  assert (H1 : is_int64 (2 * (2 ^ 53 + 1)))
    by (split; intros H; discriminate H).
  assert (H2 : is_int64 (2 ^ 62)) by (split; intros H; discriminate H).
  assert (H3 : 2 ^ 62 <= max_int64 - 512) by (intros H; discriminate H).
  split; [exact H1 |]. split; [exact H2 |]. split; [exact H3 |].
  exact (next_within_512ns_of_min cvt_amd64 (2 ^ 53 + 1) (2 ^ 62) H1 H2 H3).
Defined.

Lemma next_never_exceeds_ceiling_witness :
  let cfg := mkConfig (2 ^ 62) (30 * Second) None in
  (- 2 ^ 53 <= MaxBackoff cfg <= 2 ^ 53) /\
  next cvt_amd64 (2 ^ 62) (MaxBackoff cfg) <= MaxBackoff cfg /\
  forall i, wait cvt_amd64 cfg (S i) <= MaxBackoff cfg.
Proof.
  cbv zeta.
  assert (H : - 2 ^ 53 <= 30 * Second <= 2 ^ 53)
    by (split; intros H; discriminate H).
  split; [exact H |].
  exact (next_never_exceeds_ceiling cvt_amd64
           (mkConfig (2 ^ 62) (30 * Second) None) (2 ^ 62) H).
Defined.

Lemma next_overflow_goes_negative_witness :
  (2 ^ 62 <= 2 ^ 62 <= max_int64) /\ is_int64 (30 * Second) /\
  double (2 ^ 62) = 2 * 2 ^ 62 - 2 ^ 64 /\
  min_int64 <= next cvt_amd64 (2 ^ 62) (30 * Second) < 0.
Proof.
  assert (H1 : 2 ^ 62 <= 2 ^ 62 <= max_int64)
    by (split; intros H; discriminate H).
  assert (H2 : is_int64 (30 * Second)) by (split; intros H; discriminate H).
  split; [exact H1 |]. split; [exact H2 |].
  exact (next_overflow_goes_negative cvt_amd64 (2 ^ 62) (30 * Second) H1 H2).
Defined.
